(** * cron-uninterrupt-task: the hourly pinger, embedded in Rocq

    The repository holds two variants of the same Node.js entry point:
    - [src/index.js], the current one;
    - the JavaScript at the head of [src/unnamed/part_000], an older variant
      that still calls [getFrequency].

    Both declare a constant [API_ENDPOINT], an async function [callAPI] made
    of one [try]/[catch], and a top level that logs three lines, calls
    [callAPI()] once and registers two signal handlers.

    The embedding is shallow: a JavaScript function body is a term of a small
    free monad [Prog] whose nodes are the effects the source performs
    (reading the clock, writing to the console, awaiting [axios.get], leaving
    the process).  Two interpreters give it meaning: [exec] runs one
    invocation to completion against a [World]; [run_process] runs the whole
    module under Node's event loop, fed with a list of external [Input]s.

    The shell script that follows the JavaScript in part_000, deploy.sh, is
    embedded the same way in [Module Deploy]: a function is an effect tree
    [Deploy.Sh] of echoes, commands and exits, with [set -e], [|| true],
    [>&2] and [$( )] written out, and [Deploy.sh_exec] runs it against an
    oracle that answers every command with a status and an output. *)

From Stdlib Require Import ZArith Lia Ascii.
From stdpp Require Import base strings list gmap pretty.

Local Open Scope Z_scope.
Local Open Scope string_scope.
Local Open Scope list_scope.

(** ** JavaScript values that reach the console or the wire *)

Inductive JsVal : Type :=
| VUndefined
| VNum (n : Z)
| VStr (s : string).

(** [response.status] and [response.data] of an axios response. *)
Record Response : Type := mkResponse {
  status : Z;
  data : JsVal
}.

(** A thrown value: [error.message] and the optional [error.response]. *)
Record JsError : Type := mkError {
  message : string;
  response : option Response
}.

(** How the promise returned by [axios.get] settles. *)
Inductive Settled : Type :=
| Resolved (r : Response)
| Rejected (e : JsError).

(** What [new Date()] holds: [toISOString()] and [getHours()]. *)
Record Date : Type := mkDate {
  toISOString : string;
  getHours : Z
}.

(** An axios request options object is a JavaScript object literal. *)
Abbreviation Options := (gmap string JsVal).

(** ** Observable events *)

Inductive Event : Type :=
| ELog (args : list JsVal)                   (* console.log(...) *)
| EError (args : list JsVal)                 (* console.error(...) *)
| EGet (url : string) (options : Options)    (* axios.get(url, options) *)
| EExit (code : Z)                           (* process.exit(code) *)
| ECall (name : string)                      (* entry into a named function *)
| ESchedule (expr : string) (name : string). (* cron.schedule(expr, fn) *)

(** ** Function bodies as effect trees *)

Inductive Prog (A : Type) : Type :=
| Ret (a : A)
| Throw (e : JsError)
| NewDate (k : Date -> Prog A)
| ConsoleLog (args : list JsVal) (k : Prog A)
| ConsoleError (args : list JsVal) (k : Prog A)
| AwaitGet (url : string) (options : Options) (k : Settled -> Prog A)
| ProcessExit (code : Z).

Arguments Ret {A} a.
Arguments Throw {A} e.
Arguments NewDate {A} k.
Arguments ConsoleLog {A} args k.
Arguments ConsoleError {A} args k.
Arguments AwaitGet {A} url options k.
Arguments ProcessExit {A} code.

Fixpoint bind {A B : Type} (p : Prog A) (f : A -> Prog B) : Prog B :=
  match p with
  | Ret a => f a
  | Throw e => Throw e
  | NewDate k => NewDate (fun d => bind (k d) f)
  | ConsoleLog args k => ConsoleLog args (bind k f)
  | ConsoleError args k => ConsoleError args (bind k f)
  | AwaitGet url o k => AwaitGet url o (fun s => bind (k s) f)
  | ProcessExit c => ProcessExit c
  end.

(** [try { p } catch (error) { h error }] *)
Fixpoint try_catch {A : Type} (p : Prog A) (h : JsError -> Prog A) : Prog A :=
  match p with
  | Ret a => Ret a
  | Throw e => h e
  | NewDate k => NewDate (fun d => try_catch (k d) h)
  | ConsoleLog args k => ConsoleLog args (try_catch k h)
  | ConsoleError args k => ConsoleError args (try_catch k h)
  | AwaitGet url o k => AwaitGet url o (fun s => try_catch (k s) h)
  | ProcessExit c => ProcessExit c
  end.

(** [Prog] is a monad; stdpp's [x ← p; q] and [p;; q] sequence statements. *)
#[global] Instance Prog_ret : MRet Prog := @Ret.
#[global] Instance Prog_bind : MBind Prog := fun A B f p => bind p f.

Definition new_Date : Prog Date := NewDate Ret.
Definition console_log (args : list JsVal) : Prog unit := ConsoleLog args (Ret tt).
Definition console_error (args : list JsVal) : Prog unit := ConsoleError args (Ret tt).
Definition process_exit (code : Z) : Prog unit := ProcessExit code.

(** [await axios.get(url, options)]: a rejection is thrown at the [await]. *)
Definition await_axios_get (url : string) (options : Options) : Prog Response :=
  AwaitGet url options
    (fun s => match s with Resolved r => Ret r | Rejected e => Throw e end).

(** ** The world one invocation runs against *)

Record World : Type := mkWorld {
  (* process.env *)
  env : gmap string string;
  (* the value of the n-th [new Date()] *)
  clock : nat -> Date;
  (* how axios settles a GET of that URL with those options *)
  axios_get : string -> Options -> Settled
}.

(** How a body ends. *)
Inductive Outcome (A : Type) : Type :=
| Returned (a : A)
| Thrown (e : JsError)
| Exited (code : Z).

Arguments Returned {A} a.
Arguments Thrown {A} e.
Arguments Exited {A} code.

(** [exec w p n]: run [p] to completion, every [await] settled by [w];
    [n] counts the dates built so far.  The result is the trace, the
    number of dates built, and the outcome. *)
Fixpoint exec {A : Type} (w : World) (p : Prog A) (n : nat)
  : list Event * nat * Outcome A :=
  match p with
  | Ret a => ([], n, Returned a)
  | Throw e => ([], n, Thrown e)
  | NewDate k => exec w (k (clock w n)) (S n)
  | ConsoleLog args k =>
      let '(tr, n', o) := exec w k n in (ELog args :: tr, n', o)
  | ConsoleError args k =>
      let '(tr, n', o) := exec w k n in (EError args :: tr, n', o)
  | AwaitGet url o k =>
      let '(tr, n', r) := exec w (k (axios_get w url o)) n in
      (EGet url o :: tr, n', r)
  | ProcessExit c => ([EExit c], n, Exited c)
  end.

Definition trace_of {A : Type} (r : list Event * nat * Outcome A) : list Event :=
  r.1.1.

(** ** Configuration: line 5 of both variants *)

(** [a || b] where [a] is an environment entry: [undefined] (no entry) and
    the empty string are falsy, every other string is truthy. *)
Definition js_or (a : option string) (b : string) : string :=
  match a with
  | Some (String c s) => String c s
  | Some EmptyString => b
  | None => b
  end.

(** [const API_ENDPOINT = process.env.API_ENDPOINT || '...']; the line is
    the same in [src/index.js] and in part_000. *)
Definition API_ENDPOINT (process_env : gmap string string) : string :=
  js_or (process_env !! "API_ENDPOINT")
        "https://cloud.blackbox.ai/api/cron/resume-stalled".

(** ** The frequency label *)

(** Modelled from the spec: the function part_000 calls as [getFrequency]
    ([classify] in the specification).  No file under src/ defines it; the
    definition follows the priority table of the specification (hour mod N
    = 0 for N = 24, 12, 6, 4, 3, 2, first match wins, otherwise 1x), with
    JavaScript's [%], the truncated remainder. *)
Definition classify (hour : Z) : string :=
  if Z.eqb (Z.rem hour 24) 0 then "24x"
  else if Z.eqb (Z.rem hour 12) 0 then "12x"
  else if Z.eqb (Z.rem hour 6) 0 then "6x"
  else if Z.eqb (Z.rem hour 4) 0 then "4x"
  else if Z.eqb (Z.rem hour 3) 0 then "3x"
  else if Z.eqb (Z.rem hour 2) 0 then "2x"
  else "1x".

(** The table of the specification's testable properties, hour by hour. *)
Definition label_table : list (string * list Z) :=
  [ ("24x", [0]);
    ("12x", [12]);
    ("6x", [6; 18]);
    ("4x", [4; 8; 16; 20]);
    ("3x", [3; 9; 15; 21]);
    ("2x", [2; 10; 14; 22]);
    ("1x", [1; 5; 7; 11; 13; 17; 19; 23]) ].

(** ** Identifier resolution *)

(** What a top-level identifier is bound to. *)
Inductive Binding : Type :=
| BBuiltin                      (* a global of the Node runtime *)
| BModule (name : string)       (* the result of require(name) *)
| BString (s : string)          (* a string constant *)
| BAsyncFunction                (* an async function declaration *)
| BFunction (f : Z -> string).  (* a function from an hour to a label *)

(** The globals of the Node runtime the two files refer to.  The runtime
    has others (timers, Buffer, ...); none is called [getFrequency]. *)
Definition node_globals : gmap string Binding :=
  {[ "require" := BBuiltin; "process" := BBuiltin;
     "console" := BBuiltin; "Date" := BBuiltin ]}.

(** Reading an identifier: an unbound one throws a ReferenceError. *)
Definition resolve (scope : gmap string Binding) (name : string) : Prog Binding :=
  match scope !! name with
  | Some b => Ret b
  | None => Throw {| message := name +:+ " is not defined"; response := None |}
  end.

(** Calling what an identifier is bound to with an hour: anything but a
    function throws a TypeError. *)
Definition call_with_hour (name : string) (b : Binding) (hour : Z) : Prog string :=
  match b with
  | BFunction f => Ret (f hour)
  | _ => Throw {| message := name +:+ " is not a function"; response := None |}
  end.

(** ** The module top level *)

(** The statements a module runs when it is loaded. *)
Inductive Stmt : Type :=
| SLog (args : list JsVal)
    (* console.log(...); *)
| SCall (name : string) (body : Prog unit)
    (* name(); an async function is called and its promise is dropped *)
| SProcessOn (signal : string) (handler : Prog unit)
    (* process.on(signal, () => { ... }); *)
| SCronSchedule (expr : string) (name : string) (task : Prog unit).
    (* cron.schedule(expr, name); *)

(** Lines 44-47 and 49-52 of index.js (39-42 and 44-47 of part_000). *)
Definition on_SIGTERM : Prog unit :=
  console_log [VStr "SIGTERM received, shutting down gracefully"];;
  process_exit 0.

Definition on_SIGINT : Prog unit :=
  console_log [VStr "SIGINT received, shutting down gracefully"];;
  process_exit 0.

(** ** src/index.js *)

Module IndexJs.

(** The top-level declarations of the file (lines 1, 2, 5, 9). *)
Definition module_scope (process_env : gmap string string) : gmap string Binding :=
  {[ "cron" := BModule "node-cron"; "axios" := BModule "axios";
     "API_ENDPOINT" := BString (API_ENDPOINT process_env);
     "callAPI" := BAsyncFunction ]} ∪ node_globals.

(** Lines 28-34, the [catch (error)] block. *)
Definition on_error (error : JsError) : Prog unit :=
  failed_at ← new_Date;
  console_error [VStr ("[" +:+ toISOString failed_at +:+ "] API call failed:");
                 VStr (message error)];;
  match response error with
  | Some r =>
      console_error [VStr "Response status:"; VNum (status r)];;
      console_error [VStr "Response data:"; data r]
  | None => Ret tt
  end.

(** Lines 9-35, [async function callAPI()]. *)
Definition callAPI (API_ENDPOINT : string) : Prog unit :=
  try_catch
    (now ← new_Date;
     console_log [VStr ("[" +:+ toISOString now +:+ "] Executing cron")];;
     response ← await_axios_get API_ENDPOINT {[ "timeout" := VNum 30000 ]};
     console_log [VStr ("[" +:+ toISOString now +:+ "] API call successful:");
                  data response])
    on_error.

(** Lines 37-52, the top level; line 5 has been evaluated with the
    environment the process was started in. *)
Definition main (process_env : gmap string string) : list Stmt :=
  [ SLog [VStr "Cron job scheduler started"];
    SLog [VStr "Job will run at the start of every hour (0 * * * *)"];
    SLog [VStr "Running initial API call..."];
    SCall "callAPI" (callAPI (API_ENDPOINT process_env));
    SProcessOn "SIGTERM" on_SIGTERM;
    SProcessOn "SIGINT" on_SIGINT ].

End IndexJs.

(** ** The JavaScript of src/unnamed/part_000 *)

Module Part000.

(** The top-level declarations of the file (lines 1, 2, 5, 9): there is no
    declaration of [getFrequency]. *)
Definition module_scope (process_env : gmap string string) : gmap string Binding :=
  {[ "cron" := BModule "node-cron"; "axios" := BModule "axios";
     "API_ENDPOINT" := BString (API_ENDPOINT process_env);
     "callAPI" := BAsyncFunction ]} ∪ node_globals.

(** Lines 23-29, the [catch (error)] block. *)
Definition on_error (error : JsError) : Prog unit :=
  failed_at ← new_Date;
  console_error [VStr ("[" +:+ toISOString failed_at +:+ "] API call failed:");
                 VStr (message error)];;
  match response error with
  | Some r =>
      console_error [VStr "Response status:"; VNum (status r)];;
      console_error [VStr "Response data:"; data r]
  | None => Ret tt
  end.

(** Lines 9-30, [async function callAPI()], in the scope [scope] the
    identifier [getFrequency] is looked up in. *)
Definition callAPI (scope : gmap string Binding) (API_ENDPOINT : string) : Prog unit :=
  try_catch
    (now ← new_Date;
     let currentHour := getHours now in
     getFrequency ← resolve scope "getFrequency";
     frequency ← call_with_hour "getFrequency" getFrequency currentHour;
     console_log [VStr ("[" +:+ toISOString now +:+ "] Current hour: "
                        +:+ pretty currentHour +:+ ", Frequency: " +:+ frequency)];;
     response ← await_axios_get API_ENDPOINT {[ "timeout" := VNum 30000 ]};
     console_log [VStr ("[" +:+ toISOString now +:+ "] API call successful:");
                  VNum (status response)];;
     console_log [VStr "Response data:"; data response])
    on_error.

(** Lines 32-47, the top level. *)
Definition main (process_env : gmap string string) : list Stmt :=
  [ SLog [VStr "Cron job scheduler started"];
    SLog [VStr "Job will run at the start of every hour (0 * * * *)"];
    SLog [VStr "Running initial API call..."];
    SCall "callAPI" (callAPI (module_scope process_env) (API_ENDPOINT process_env));
    SProcessOn "SIGTERM" on_SIGTERM;
    SProcessOn "SIGINT" on_SIGINT ].

End Part000.

(** ** The Node process *)

(** The process lives until it leaves through [process.exit], an uncaught
    error or an unhandled signal.  A real process may also end earlier, when
    nothing is left to wait for; that only removes behaviours, so what holds
    of every run below holds of the real ones. *)

Record Process : Type := mkProcess {
  (* what has happened so far, oldest first *)
  trace : list Event;
  (* how many dates have been built *)
  dates : nat;
  (* requests in flight, each with the code suspended at its [await] *)
  pending : list (string * Options * (Settled -> Prog unit));
  (* listeners added by process.on *)
  handlers : list (string * Prog unit);
  (* tasks registered by cron.schedule *)
  tasks : list (string * Prog unit);
  (* false once the process has exited *)
  alive : bool
}.

Definition start : Process :=
  {| trace := []; dates := 0; pending := []; handlers := []; tasks := [];
     alive := true |}.

Definition emit (e : Event) (st : Process) : Process :=
  {| trace := trace st ++ [e]; dates := dates st; pending := pending st;
     handlers := handlers st; tasks := tasks st; alive := alive st |}.

Definition tick (st : Process) : Process :=
  {| trace := trace st; dates := S (dates st); pending := pending st;
     handlers := handlers st; tasks := tasks st; alive := alive st |}.

Definition suspend (url : string) (o : Options) (k : Settled -> Prog unit)
    (st : Process) : Process :=
  {| trace := trace st; dates := dates st;
     pending := pending st ++ [(url, o, k)];
     handlers := handlers st; tasks := tasks st; alive := alive st |}.

Definition set_pending (l : list (string * Options * (Settled -> Prog unit)))
    (st : Process) : Process :=
  {| trace := trace st; dates := dates st; pending := l;
     handlers := handlers st; tasks := tasks st; alive := alive st |}.

Definition add_handler (signal : string) (h : Prog unit) (st : Process) : Process :=
  {| trace := trace st; dates := dates st; pending := pending st;
     handlers := handlers st ++ [(signal, h)]; tasks := tasks st;
     alive := alive st |}.

Definition add_task (name : string) (t : Prog unit) (st : Process) : Process :=
  {| trace := trace st; dates := dates st; pending := pending st;
     handlers := handlers st; tasks := tasks st ++ [(name, t)];
     alive := alive st |}.

Definition halt (st : Process) : Process :=
  {| trace := trace st; dates := dates st; pending := pending st;
     handlers := handlers st; tasks := tasks st; alive := false |}.

(** Run a body until it returns, suspends at an [await], or leaves the
    process.  An error nobody catches ends the process. *)
Fixpoint run_sync (w : World) (p : Prog unit) (st : Process) : Process :=
  match p with
  | Ret _ => st
  | Throw _ => halt st
  | NewDate k => run_sync w (k (clock w (dates st))) (tick st)
  | ConsoleLog args k => run_sync w k (emit (ELog args) st)
  | ConsoleError args k => run_sync w k (emit (EError args) st)
  | AwaitGet url o k => suspend url o k (emit (EGet url o) st)
  | ProcessExit c => halt (emit (EExit c) st)
  end.

(** Run a body if the process is still alive. *)
Definition run_if_alive (w : World) (p : Prog unit) (st : Process) : Process :=
  if alive st then run_sync w p st else st.

Definition run_stmt (w : World) (st : Process) (s : Stmt) : Process :=
  if alive st then
    match s with
    | SLog args => emit (ELog args) st
    | SCall name body => run_sync w body (emit (ECall name) st)
    | SProcessOn signal h => add_handler signal h st
    | SCronSchedule expr name t => add_task name t (emit (ESchedule expr name) st)
    end
  else st.

(** What reaches the process from outside once the module is loaded. *)
Inductive Input : Type :=
| IResponse                  (* the oldest request in flight settles *)
| ISignal (signal : string)  (* the process receives a signal *)
| IHour.                     (* the wall clock reaches minute 0 of an hour *)

Definition listeners (signal : string) (st : Process) : list (Prog unit) :=
  (filter (fun h => h.1 = signal) (handlers st)).*2.

Definition fire (w : World) (st : Process) (t : string * Prog unit) : Process :=
  if alive st then run_sync w t.2 (emit (ECall t.1) st) else st.

Definition step (w : World) (st : Process) (i : Input) : Process :=
  if alive st then
    match i with
    | IResponse =>
        match pending st with
        | [] => st
        | (url, o, k) :: rest =>
            run_sync w (k (axios_get w url o)) (set_pending rest st)
        end
    | ISignal signal =>
        match listeners signal st with
        | [] => halt st
        | hs => foldl (fun s h => run_if_alive w h s) st hs
        end
    | IHour => foldl (fire w) st (tasks st)
    end
  else st.

Definition run_process (w : World) (main : list Stmt) (inputs : list Input) : Process :=
  foldl (step w) (foldl (run_stmt w) start main) inputs.

(** ** Reading a trace *)

#[global] Instance JsVal_eq_dec : EqDecision JsVal.
Proof. solve_decision. Defined.

(** The requests sent, oldest first. *)
Definition requests (tr : list Event) : list (string * Options) :=
  omap (fun e => match e with EGet url o => Some (url, o) | _ => None end) tr.

(** Function entries and cron registrations, oldest first. *)
Definition is_control (e : Event) : bool :=
  match e with
  | ECall _ | ESchedule _ _ => true
  | _ => false
  end.

Definition control_events (tr : list Event) : list Event :=
  List.filter is_control tr.

(** [ends_with suffix s]: [s] is [suffix] with something in front. *)
Fixpoint ends_with (suffix s : string) : bool :=
  if String.eqb s suffix then true
  else match s with
       | EmptyString => false
       | String _ s' => ends_with suffix s'
       end.

(** The last character of a string. *)
Fixpoint last_char (s : string) : option Ascii.ascii :=
  match s with
  | EmptyString => None
  | String c EmptyString => Some c
  | String _ s' => last_char s'
  end.

(** The success report is the [console.log] whose first argument is the
    timestamped text "API call successful:". *)
Definition success_report (e : Event) : bool :=
  match e with
  | ELog (VStr s :: _) => ends_with "] API call successful:" s
  | _ => false
  end.

(** The failure report is the [console.error] whose first argument is the
    timestamped text "API call failed:". *)
Definition failure_report (e : Event) : bool :=
  match e with
  | EError (VStr s :: _) => ends_with "] API call failed:" s
  | _ => false
  end.

Definition reports_success (tr : list Event) : bool := existsb success_report tr.
Definition reports_failure (tr : list Event) : bool := existsb failure_report tr.

(** [v] is among the arguments of some console call of the trace. *)
Definition surfaced (v : JsVal) (tr : list Event) : bool :=
  existsb (fun e => match e with
                    | ELog args | EError args => bool_decide (v ∈ args)
                    | _ => false
                    end) tr.

(** The HTTP response a settled request carries, if one was received: the
    resolved response, or the one attached to the rejection. *)
Definition http_response (s : Settled) : option Response :=
  match s with
  | Resolved r => Some r
  | Rejected e => response e
  end.

(** The events of a failure report written at date [d] for error [e]:
    the message, then status and body when a response is attached. *)
Definition failure_events (d : Date) (e : JsError) : list Event :=
  EError [VStr ("[" +:+ toISOString d +:+ "] API call failed:"); VStr (message e)]
  :: match response e with
     | Some r => [ EError [VStr "Response status:"; VNum (status r)];
                   EError [VStr "Response data:"; data r] ]
     | None => []
     end.

(** ** axios with the options the source passes *)

(** What happens on the wire. *)
Inductive Wire : Type :=
| Answered (r : Response)     (* an HTTP response came back *)
| Failed (reason : string).   (* timeout, DNS failure, connection refused *)

(** The library's default [validateStatus]; [callAPI] passes only
    [timeout], so this default is in force. *)
Definition validateStatus (status : Z) : bool :=
  Z.leb 200 status && Z.ltb status 300.

(** How axios settles: a status that fails [validateStatus] rejects with
    the response attached to the error; no answer rejects without one. *)
Definition axios_settle (wire : Wire) : Settled :=
  match wire with
  | Answered r =>
      if validateStatus (status r) then Resolved r
      else Rejected {| message := "Request failed with status code " +:+ pretty (status r);
                       response := Some r |}
  | Failed reason => Rejected {| message := reason; response := None |}
  end.

(** A world with the given environment, a clock that stands still, and a
    wire that behaves the same for every request. *)
Definition world_of (process_env : gmap string string) (wire : Wire) : World :=
  {| env := process_env;
     clock := fun n => {| toISOString := "2024-01-01T00:00:00.000Z"; getHours := 0 |};
     axios_get := fun _ _ => axios_settle wire |}.

(** The options object literal of both call sites. *)
Definition call_options : Options := {[ "timeout" := VNum 30000 ]}.

(** Every [axios.get] a body can reach satisfies [P]. *)
Fixpoint gets_in {A : Type} (P : string -> Options -> Prop) (p : Prog A) : Prop :=
  match p with
  | Ret _ | Throw _ | ProcessExit _ => True
  | NewDate k => forall d, gets_in P (k d)
  | ConsoleLog _ k | ConsoleError _ k => gets_in P k
  | AwaitGet url o k => P url o /\ forall s, gets_in P (k s)
  end.

(** The same for everything a process holds. *)
Definition process_gets (P : string -> Options -> Prop) (st : Process) : Prop :=
  Forall (fun r => P r.1 r.2) (requests (trace st))
  /\ Forall (fun q => forall s, gets_in P (q.2 s)) (pending st)
  /\ Forall (fun h => gets_in P h.2) (handlers st)
  /\ Forall (fun t => gets_in P t.2) (tasks st).

Definition stmt_gets (P : string -> Options -> Prop) (s : Stmt) : Prop :=
  match s with
  | SLog _ => True
  | SCall _ body => gets_in P body
  | SProcessOn _ h => gets_in P h
  | SCronSchedule _ _ t => gets_in P t
  end.

(** ** One invocation of each variant *)

(** The trace of one [callAPI()] of index.js in world [w], the endpoint
    having been read from the environment of [w]. *)
Definition index_js_run (w : World) (n : nat) : list Event :=
  trace_of (exec w (IndexJs.callAPI (API_ENDPOINT (env w))) n).

(** The same for part_000, in the scope of its own declarations. *)
Definition part_000_run (w : World) (n : nat) : list Event :=
  trace_of (exec w (Part000.callAPI (Part000.module_scope (env w))
                                    (API_ENDPOINT (env w))) n).

(** The error thrown by reading an identifier nothing declares. *)
Definition getFrequency_unbound : JsError :=
  {| message := "getFrequency is not defined"; response := None |}.

(** Sample worlds: no environment entry, and a wire that answers 200,
    answers 500, or does not answer. *)
Definition world_200 : World :=
  world_of ∅ (Answered {| status := 200; data := VStr "[]" |}).

Definition world_500 : World :=
  world_of ∅ (Answered {| status := 500; data := VStr "Internal Server Error" |}).

Definition world_down : World :=
  world_of ∅ (Failed "connect ECONNREFUSED 127.0.0.1:443").

(** ** Further observations *)

(** A body that cannot end the process: no path of it ends in an uncaught
    [throw] or in [process.exit]. *)
Fixpoint stays {A : Type} (p : Prog A) : Prop :=
  match p with
  | Ret _ => True
  | Throw _ | ProcessExit _ => False
  | NewDate k => forall d, stays (k d)
  | ConsoleLog _ k | ConsoleError _ k => stays k
  | AwaitGet _ _ k => forall s, stays (k s)
  end.

Definition is_signal (i : Input) : bool :=
  match i with
  | ISignal _ => true
  | _ => false
  end.

Definition is_exit (e : Event) : bool :=
  match e with
  | EExit _ => true
  | _ => false
  end.

(** How many success and failure reports a trace holds. *)
Definition report_count (tr : list Event) : nat :=
  length (List.filter success_report tr) + length (List.filter failure_report tr).

(** What both top levels have written when they call [callAPI()]. *)
Definition startup_lines : list Event :=
  [ ELog [VStr "Cron job scheduler started"];
    ELog [VStr "Job will run at the start of every hour (0 * * * *)"];
    ELog [VStr "Running initial API call..."] ].

(** What a listener of either file leaves in the trace. *)
Definition shutdown_events (signal : string) : list Event :=
  [ ELog [VStr (signal +:+ " received, shutting down gracefully")]; EExit 0 ].

(** The state of a process between two inputs, as both files keep it: alive,
    no cron task, the two listeners, and nothing suspended that could end
    the process. *)
Definition settled_state (st : Process) : Prop :=
  alive st = true
  /\ tasks st = []
  /\ handlers st = [("SIGTERM", on_SIGTERM); ("SIGINT", on_SIGINT)]
  /\ Forall (fun q => forall s, stays (q.2 s)) (pending st).

(** ** deploy.sh, the shell script of src/unnamed/part_000 *)

Module Deploy.

(** Where a command's standard output goes. *)
Inductive Out : Type :=
| ToStdout    (* nowhere else: the standard output of the caller *)
| ToStderr    (* >&2 *)
| ToNull      (* &> /dev/null *)
| ToSubst.    (* read by the enclosing $( ) *)

(** What a run of the script leaves behind. *)
Inductive ShEvent : Type :=
| Echo (out : Out) (e : bool) (text : string)  (* echo "text", or echo -e "text" *)
| Cat (text : string)                          (* cat of a here-document *)
| Ran (argv : list string) (status : Z).       (* a command and its exit status *)

(** Shell code as an effect tree.  A command run gives back its exit
    status and what it wrote to its standard output. *)
Inductive Sh (A : Type) : Type :=
| ShRet (a : A)
| ShExit (code : Z)
| ShEcho (out : Out) (e : bool) (text : string) (k : Sh A)
| ShCat (text : string) (k : Sh A)
| ShRun (argv : list string) (out : Out) (k : Z * string -> Sh A).

Arguments ShRet {A} a.
Arguments ShExit {A} code.
Arguments ShEcho {A} out e text k.
Arguments ShCat {A} text k.
Arguments ShRun {A} argv out k.

Fixpoint sh_bind {A B : Type} (p : Sh A) (f : A -> Sh B) : Sh B :=
  match p with
  | ShRet a => f a
  | ShExit c => ShExit c
  | ShEcho o e t k => ShEcho o e t (sh_bind k f)
  | ShCat t k => ShCat t (sh_bind k f)
  | ShRun argv o k => ShRun argv o (fun r => sh_bind (k r) f)
  end.

#[global] Instance Sh_ret : MRet Sh := @ShRet.
#[global] Instance Sh_bind : MBind Sh := fun A B f p => sh_bind p f.

(** [echo "text"] and [echo -e "text"]. *)
Definition echo (text : string) : Sh unit := ShEcho ToStdout false text (ShRet tt).
Definition echo_e (text : string) : Sh unit := ShEcho ToStdout true text (ShRet tt).

(** A command, giving its exit status. *)
Definition run (argv : list string) (out : Out) : Sh Z :=
  ShRun argv out (fun r => ShRet r.1).

(** A simple command under [set -e]: a non-zero status ends the script with
    that status. *)
Definition simple (c : Sh Z) : Sh unit :=
  s ← c; if decide (s = 0) then mret tt else ShExit s.

(** [cmd || true] *)
Definition or_true (c : Sh Z) : Sh unit := _ ← c; mret tt.

(** The line feed, and the removal of trailing line feeds that command
    substitution performs. *)
Definition LF : Ascii.ascii := Ascii.ascii_of_nat 10.

Fixpoint strip_newlines (s : string) : string :=
  match s with
  | EmptyString => EmptyString
  | String c s' =>
      match strip_newlines s' with
      | EmptyString => if decide (c = LF) then EmptyString else String c EmptyString
      | rest => String c rest
      end
  end.

(** [$(cmd)] for one command: its status, and its output without the
    trailing line feeds. *)
Definition run_subst (argv : list string) : Sh (Z * string) :=
  ShRun argv ToSubst (fun r => ShRet (r.1, strip_newlines r.2)).

(** [{ ...; } >&2]: what would go to the standard output goes to the
    standard error. *)
Fixpoint to_stderr {A : Type} (p : Sh A) : Sh A :=
  match p with
  | ShRet a => ShRet a
  | ShExit c => ShExit c
  | ShEcho o e t k =>
      ShEcho (match o with ToStdout => ToStderr | _ => o end) e t (to_stderr k)
  | ShCat t k => ShCat t (to_stderr k)
  | ShRun argv o k =>
      ShRun argv (match o with ToStdout => ToStderr | _ => o end)
            (fun r => to_stderr (k r))
  end.

(** What [echo -e] makes of the two escapes the script uses ([\n] and
    [\033]); other characters are kept. *)
Fixpoint interpret (s : string) : string :=
  match s with
  | String "\"%char (String "n"%char s') => String LF (interpret s')
  | String "\"%char (String "0"%char (String "3"%char (String "3"%char s'))) =>
      String (Ascii.ascii_of_nat 27) (interpret s')
  | String c s' => String c (interpret s')
  | EmptyString => EmptyString
  end.

(** [$(body)] for a function body: the subshell's standard output is read
    instead of shown, [exit] leaves the subshell only, and the result is
    the status and the output without its trailing line feeds.  A body that
    returns has status 0 here, its last command being an [echo]. *)
Fixpoint subst_from {A : Type} (p : Sh A) (acc : string) : Sh (Z * string) :=
  match p with
  | ShRet _ => ShRet (0, strip_newlines acc)
  | ShExit c => ShRet (c, strip_newlines acc)
  | ShEcho ToStdout e t k =>
      subst_from k (acc +:+ (if e then interpret t else t) +:+ String LF EmptyString)
  | ShEcho o e t k => ShEcho o e t (subst_from k acc)
  | ShCat t k => subst_from k (acc +:+ t)
  | ShRun argv ToStdout k => ShRun argv ToSubst (fun r => subst_from (k r) (acc +:+ r.2))
  | ShRun argv o k => ShRun argv o (fun r => subst_from (k r) acc)
  end.

Definition subst {A : Type} (p : Sh A) : Sh (Z * string) := subst_from p "".

(** [for x in l; do body; done] *)
Fixpoint for_each {A : Type} (l : list A) (body : A -> Sh unit) : Sh unit :=
  match l with
  | [] => mret tt
  | x :: l' => body x;; for_each l' body
  end.

(** The outside of the script: the [n]-th command run, with arguments
    [argv], gives a status and an output. *)
Definition Oracle : Type := nat -> list string -> Z * string.

(** [sh_exec oracle p n]: the trace of [p], the number of commands run,
    and how [p] ends: with a value, or with the exit status of the shell. *)
Fixpoint sh_exec {A : Type} (oracle : Oracle) (p : Sh A) (n : nat)
  : list ShEvent * nat * (A + Z) :=
  match p with
  | ShRet a => ([], n, inl a)
  | ShExit c => ([], n, inr c)
  | ShEcho o e t k =>
      let '(tr, n', r) := sh_exec oracle k n in (Echo o e t :: tr, n', r)
  | ShCat t k =>
      let '(tr, n', r) := sh_exec oracle k n in (Cat t :: tr, n', r)
  | ShRun argv o k =>
      let '(tr, n', r) := sh_exec oracle (k (oracle n argv)) (S n) in
      (Ran argv (oracle n argv).1 :: tr, n', r)
  end.

(** The commands of a trace, oldest first. *)
Definition commands (tr : list ShEvent) : list (list string * Z) :=
  omap (fun ev => match ev with Ran argv s => Some (argv, s) | _ => None end) tr.

(** *** Lines 63-90: colours and configuration *)

Definition RED : string := "\033[0;31m".
Definition GREEN : string := "\033[0;32m".
Definition YELLOW : string := "\033[1;33m".
Definition BLUE : string := "\033[0;34m".
Definition NC : string := "\033[0m".

(** [${value:-default}]: the default when the variable is unset or empty. *)
Definition or_default (value : option string) (default : string) : string :=
  match value with
  | Some (String c s) => String c s
  | Some EmptyString => default
  | None => default
  end.

Record Config : Type := mkConfig {
  PROJECT_ID : string;
  REGION : string;
  REPOSITORY_NAME : string;
  IMAGE_NAME : string;
  JOB_NAME : string;
  SCHEDULER_NAME : string;
  API_ENDPOINT : string;
  SERVICE_ACCOUNT : string;
  MEMORY : string;
  CPU : string;
  TIMEOUT : string;
  MAX_RETRIES : string;
  SCHEDULE : string;
  TIMEZONE : string
}.

Definition load_config (environment : gmap string string) : Config :=
  {| PROJECT_ID := or_default (environment !! "GCP_PROJECT_ID") "";
     REGION := or_default (environment !! "GCP_REGION") "us-central1";
     REPOSITORY_NAME := or_default (environment !! "ARTIFACT_REGISTRY_REPO") "cron-jobs";
     IMAGE_NAME := or_default (environment !! "IMAGE_NAME") "cron-uninterrupt-task";
     JOB_NAME := or_default (environment !! "CLOUD_RUN_JOB_NAME") "cron-uninterrupt-task";
     SCHEDULER_NAME :=
       or_default (environment !! "SCHEDULER_NAME") "cron-uninterrupt-task-hourly";
     API_ENDPOINT :=
       or_default (environment !! "API_ENDPOINT")
                  "https://cloud.blackbox.ai/api/cron/resume-stalled";
     SERVICE_ACCOUNT := or_default (environment !! "SERVICE_ACCOUNT") "";
     MEMORY := or_default (environment !! "MEMORY") "512Mi";
     CPU := or_default (environment !! "CPU") "1";
     TIMEOUT := or_default (environment !! "TIMEOUT") "300s";
     MAX_RETRIES := or_default (environment !! "MAX_RETRIES") "3";
     SCHEDULE := or_default (environment !! "SCHEDULE") "0 * * * *";
     TIMEZONE := or_default (environment !! "TIMEZONE") "America/Los_Angeles" |}.

(** [PROJECT_ID=...], the one variable the script assigns again. *)
Definition set_PROJECT_ID (id : string) (cfg : Config) : Config :=
  {| PROJECT_ID := id; REGION := REGION cfg; REPOSITORY_NAME := REPOSITORY_NAME cfg;
     IMAGE_NAME := IMAGE_NAME cfg; JOB_NAME := JOB_NAME cfg;
     SCHEDULER_NAME := SCHEDULER_NAME cfg; API_ENDPOINT := API_ENDPOINT cfg;
     SERVICE_ACCOUNT := SERVICE_ACCOUNT cfg; MEMORY := MEMORY cfg; CPU := CPU cfg;
     TIMEOUT := TIMEOUT cfg; MAX_RETRIES := MAX_RETRIES cfg; SCHEDULE := SCHEDULE cfg;
     TIMEZONE := TIMEZONE cfg |}.

(** *** Lines 96-116: helper functions *)

Definition print_header (msg : string) : Sh unit :=
  echo_e ("\n" +:+ BLUE +:+ "========================================" +:+ NC);;
  echo_e (BLUE +:+ msg +:+ NC);;
  echo_e (BLUE +:+ "========================================" +:+ NC +:+ "\n").

Definition print_success (msg : string) : Sh unit :=
  echo_e (GREEN +:+ "✓ " +:+ msg +:+ NC).

Definition print_error (msg : string) : Sh unit :=
  echo_e (RED +:+ "✗ " +:+ msg +:+ NC).

Definition print_warning (msg : string) : Sh unit :=
  echo_e (YELLOW +:+ "⚠ " +:+ msg +:+ NC).

Definition print_info (msg : string) : Sh unit :=
  echo_e (BLUE +:+ "ℹ " +:+ msg +:+ NC).

(** *** Lines 122-177: validation functions *)

Definition check_prerequisites : Sh unit :=
  print_header "Checking Prerequisites";;
  found_gcloud ← run ["command"; "-v"; "gcloud"] ToNull;
  (if decide (found_gcloud = 0) then mret tt
   else print_error "gcloud CLI is not installed. Please install it from: https://cloud.google.com/sdk/docs/install";;
        ShExit 1);;
  print_success "gcloud CLI is installed";;
  found_docker ← run ["command"; "-v"; "docker"] ToNull;
  (if decide (found_docker = 0) then mret tt
   else print_error "Docker is not installed. Please install it from: https://docs.docker.com/get-docker/";;
        ShExit 1);;
  print_success "Docker is installed";;
  authenticated ← run ["gcloud"; "auth"; "list"; "--filter=status:ACTIVE";
                       "--format=value(account)"] ToNull;
  (if decide (authenticated = 0) then mret tt
   else print_error "Not authenticated with gcloud. Please run: gcloud auth login";;
        ShExit 1);;
  print_success "Authenticated with gcloud".

(** The function assigns [PROJECT_ID]; the configuration it leaves is its
    result. *)
Definition get_project_id (cfg : Config) : Sh Config :=
  if decide (PROJECT_ID cfg = "") then
    r ← run_subst ["gcloud"; "config"; "get-value"; "project"];
    if decide (r.1 = 0) then
      if decide (r.2 = "") then
        print_error "No GCP project set. Please run: gcloud config set project YOUR_PROJECT_ID";;
        ShExit 1
      else
        print_info ("Using project: " +:+ r.2);;
        mret (set_PROJECT_ID r.2 cfg)
    else ShExit r.1
  else
    print_info ("Using specified project: " +:+ PROJECT_ID cfg);;
    mret cfg.

Definition apis : list string :=
  [ "artifactregistry.googleapis.com";
    "run.googleapis.com";
    "cloudscheduler.googleapis.com";
    "cloudbuild.googleapis.com" ].

Definition enable_required_apis (cfg : Config) : Sh unit :=
  print_header "Enabling Required APIs";;
  for_each apis (fun api =>
    print_info ("Enabling " +:+ api +:+ "...");;
    or_true (run ["gcloud"; "services"; "enable"; api;
                  "--project=" +:+ PROJECT_ID cfg] ToStdout));;
  print_success "Required APIs enabled";;
  simple (run ["sleep"; "2"] ToStdout).

(** *** Lines 183-205: Artifact Registry *)

Definition setup_artifact_registry (cfg : Config) : Sh unit :=
  print_header "Setting up Artifact Registry";;
  exists_already ← run ["gcloud"; "artifacts"; "repositories"; "describe";
                        REPOSITORY_NAME cfg;
                        "--location=" +:+ REGION cfg;
                        "--project=" +:+ PROJECT_ID cfg] ToNull;
  (if decide (exists_already = 0) then
     print_success ("Artifact Registry repository '" +:+ REPOSITORY_NAME cfg
                    +:+ "' already exists")
   else
     print_info ("Creating Artifact Registry repository '" +:+ REPOSITORY_NAME cfg
                 +:+ "'...");;
     simple (run ["gcloud"; "artifacts"; "repositories"; "create";
                  REPOSITORY_NAME cfg;
                  "--repository-format=docker";
                  "--location=" +:+ REGION cfg;
                  "--description=Docker repository for cron jobs";
                  "--project=" +:+ PROJECT_ID cfg] ToStdout);;
     print_success "Artifact Registry repository created");;
  print_info "Configuring Docker authentication...";;
  simple (run ["gcloud"; "auth"; "configure-docker";
               REGION cfg +:+ "-docker.pkg.dev"; "--quiet"] ToStdout);;
  print_success "Docker authentication configured".

(** *** Lines 211-244: Docker *)

Definition image_tag (cfg : Config) : string :=
  REGION cfg +:+ "-docker.pkg.dev/" +:+ PROJECT_ID cfg +:+ "/"
  +:+ REPOSITORY_NAME cfg +:+ "/" +:+ IMAGE_NAME cfg +:+ ":latest".

Definition image_tag_timestamp (cfg : Config) (now : string) : string :=
  REGION cfg +:+ "-docker.pkg.dev/" +:+ PROJECT_ID cfg +:+ "/"
  +:+ REPOSITORY_NAME cfg +:+ "/" +:+ IMAGE_NAME cfg +:+ ":" +:+ now.

(** The function runs inside [$( )], where bash clears [set -e]: a status
    counts only where an [if] tests it. *)
Definition build_and_push_image (cfg : Config) : Sh unit :=
  to_stderr
    (print_header "Building and Pushing Docker Image";;
     now ← run_subst ["date"; "+%Y%m%d-%H%M%S"];
     print_info "Building Docker image for linux/amd64 platform...";;
     built ← run ["docker"; "build"; "--platform"; "linux/amd64";
                  "-t"; image_tag cfg; "-t"; image_tag_timestamp cfg now.2; "."] ToStdout;
     (if decide (built = 0) then print_success "Docker image built successfully"
      else print_error "Failed to build Docker image";; ShExit 1);;
     print_info "Pushing image with tag 'latest' to Artifact Registry...";;
     pushed ← run ["docker"; "push"; image_tag cfg] ToStdout;
     (if decide (pushed = 0) then print_success "Image with tag 'latest' pushed successfully"
      else print_error "Failed to push image with tag 'latest'";; ShExit 1);;
     print_info "Pushing image with timestamp tag to Artifact Registry...";;
     pushed_timestamp ← run ["docker"; "push"; image_tag_timestamp cfg now.2] ToStdout;
     (if decide (pushed_timestamp = 0) then
        print_success "Image with timestamp tag pushed successfully"
      else print_error "Failed to push image with timestamp tag";; ShExit 1));;
  echo (image_tag cfg).

(** *** Lines 250-283: Cloud Run job *)

Definition deploy_cloud_run_job (cfg : Config) (image_url : string) : Sh unit :=
  print_header "Deploying Cloud Run Job";;
  print_info ("Creating/updating Cloud Run Job '" +:+ JOB_NAME cfg
              +:+ "' in region '" +:+ REGION cfg +:+ "'...");;
  (if decide (SERVICE_ACCOUNT cfg = "") then
     simple (run ["gcloud"; "run"; "jobs"; "deploy"; JOB_NAME cfg;
                  "--image=" +:+ image_url;
                  "--region=" +:+ REGION cfg;
                  "--project=" +:+ PROJECT_ID cfg;
                  "--set-env-vars=API_ENDPOINT=" +:+ API_ENDPOINT cfg] ToStdout)
   else
     simple (run ["gcloud"; "run"; "jobs"; "deploy"; JOB_NAME cfg;
                  "--image=" +:+ image_url;
                  "--region=" +:+ REGION cfg;
                  "--project=" +:+ PROJECT_ID cfg;
                  "--set-env-vars=API_ENDPOINT=" +:+ API_ENDPOINT cfg;
                  "--service-account=" +:+ SERVICE_ACCOUNT cfg] ToStdout));;
  print_success "Cloud Run Job deployed successfully".

(** *** Lines 289-329: Cloud Scheduler *)

Definition job_uri (cfg : Config) : string :=
  "https://" +:+ REGION cfg
  +:+ "-run.googleapis.com/apis/run.googleapis.com/v1/namespaces/"
  +:+ PROJECT_ID cfg +:+ "/jobs/" +:+ JOB_NAME cfg +:+ ":run".

(** [${SERVICE_ACCOUNT:-${PROJECT_ID}@appspot.gserviceaccount.com}] *)
Definition oauth_email (cfg : Config) : string :=
  or_default (Some (SERVICE_ACCOUNT cfg))
             (PROJECT_ID cfg +:+ "@appspot.gserviceaccount.com").

Definition setup_cloud_scheduler (cfg : Config) : Sh unit :=
  print_header "Setting up Cloud Scheduler";;
  has_app ← run ["gcloud"; "app"; "describe"; "--project=" +:+ PROJECT_ID cfg] ToNull;
  (if decide (has_app = 0) then mret tt
   else
     print_warning "App Engine app not found. Cloud Scheduler requires an App Engine app.";;
     print_info ("Creating App Engine app in region " +:+ REGION cfg +:+ "...");;
     or_true (run ["gcloud"; "app"; "create"; "--region=" +:+ REGION cfg;
                   "--project=" +:+ PROJECT_ID cfg] ToStdout));;
  has_job ← run ["gcloud"; "scheduler"; "jobs"; "describe"; SCHEDULER_NAME cfg;
                 "--location=" +:+ REGION cfg;
                 "--project=" +:+ PROJECT_ID cfg] ToNull;
  if decide (has_job = 0) then
    print_info "Updating existing Cloud Scheduler job...";;
    simple (run ["gcloud"; "scheduler"; "jobs"; "update"; "http"; SCHEDULER_NAME cfg;
                 "--location=" +:+ REGION cfg;
                 "--project=" +:+ PROJECT_ID cfg;
                 "--schedule=" +:+ SCHEDULE cfg;
                 "--uri=" +:+ job_uri cfg;
                 "--http-method=POST";
                 "--oauth-service-account-email=" +:+ oauth_email cfg;
                 "--time-zone=" +:+ TIMEZONE cfg] ToStdout);;
    print_success "Cloud Scheduler job updated"
  else
    print_info "Creating Cloud Scheduler job...";;
    simple (run ["gcloud"; "scheduler"; "jobs"; "create"; "http"; SCHEDULER_NAME cfg;
                 "--location=" +:+ REGION cfg;
                 "--project=" +:+ PROJECT_ID cfg;
                 "--schedule=" +:+ SCHEDULE cfg;
                 "--uri=" +:+ job_uri cfg;
                 "--http-method=POST";
                 "--oauth-service-account-email=" +:+ oauth_email cfg;
                 "--time-zone=" +:+ TIMEZONE cfg;
                 "--description=Hourly trigger for " +:+ JOB_NAME cfg] ToStdout);;
    print_success "Cloud Scheduler job created".

(** *** Lines 335-372: the deployment flow *)

(** The double quote, which the summary and the usage text contain. *)
Definition DQ : string := String (Ascii.ascii_of_nat 34) EmptyString.

Definition print_deployment_summary (cfg : Config) : Sh unit :=
  print_header "Deployment Summary";;
  echo_e (GREEN +:+ "Deployment completed successfully!" +:+ NC +:+ "\n");;
  echo_e ("📦 " +:+ BLUE +:+ "Project:" +:+ NC +:+ " " +:+ PROJECT_ID cfg);;
  echo_e ("🌍 " +:+ BLUE +:+ "Region:" +:+ NC +:+ " " +:+ REGION cfg);;
  echo_e ("📁 " +:+ BLUE +:+ "Artifact Registry:" +:+ NC +:+ " " +:+ REPOSITORY_NAME cfg);;
  echo_e ("🐳 " +:+ BLUE +:+ "Image:" +:+ NC +:+ " " +:+ IMAGE_NAME cfg);;
  echo_e ("⚙️  " +:+ BLUE +:+ "Cloud Run Job:" +:+ NC +:+ " " +:+ JOB_NAME cfg);;
  echo_e ("⏰ " +:+ BLUE +:+ "Scheduler:" +:+ NC +:+ " " +:+ SCHEDULER_NAME cfg);;
  echo_e ("📅 " +:+ BLUE +:+ "Schedule:" +:+ NC +:+ " " +:+ SCHEDULE cfg
          +:+ " (" +:+ TIMEZONE cfg +:+ ")");;
  echo_e ("🔗 " +:+ BLUE +:+ "API Endpoint:" +:+ NC +:+ " " +:+ API_ENDPOINT cfg);;
  echo "";;
  echo_e (YELLOW +:+ "Useful Commands:" +:+ NC);;
  echo_e ("  View job details:    " +:+ BLUE +:+ "gcloud run jobs describe "
          +:+ JOB_NAME cfg +:+ " --region=" +:+ REGION cfg +:+ NC);;
  echo_e ("  Execute job now:     " +:+ BLUE +:+ "gcloud run jobs execute "
          +:+ JOB_NAME cfg +:+ " --region=" +:+ REGION cfg +:+ NC);;
  echo_e ("  View job logs:       " +:+ BLUE +:+ "gcloud logging read " +:+ DQ
          +:+ "resource.type=cloud_run_job AND resource.labels.job_name="
          +:+ JOB_NAME cfg +:+ DQ +:+ " --limit=50 --format=json" +:+ NC);;
  echo_e ("  View scheduler:      " +:+ BLUE +:+ "gcloud scheduler jobs describe "
          +:+ SCHEDULER_NAME cfg +:+ " --location=" +:+ REGION cfg +:+ NC);;
  echo_e ("  Trigger scheduler:   " +:+ BLUE +:+ "gcloud scheduler jobs run "
          +:+ SCHEDULER_NAME cfg +:+ " --location=" +:+ REGION cfg +:+ NC);;
  echo "".

Definition main (cfg : Config) : Sh unit :=
  print_header "Starting Deployment Process";;
  check_prerequisites;;
  cfg ← get_project_id cfg;
  enable_required_apis cfg;;
  setup_artifact_registry cfg;;
  image ← subst (build_and_push_image cfg);
  if decide (image.1 = 0) then
    deploy_cloud_run_job cfg image.2;;
    setup_cloud_scheduler cfg;;
    print_deployment_summary cfg
  else ShExit image.1.

(** *** Lines 379-419: the entry point *)

Definition usage : string :=
"Usage: ./deploy.sh [OPTIONS]

Deploys a containerized cron job to Google Cloud Platform.

Environment Variables (optional):
  GCP_PROJECT_ID              GCP project ID (default: current gcloud project)
  GCP_REGION                  GCP region (default: us-central1)
  ARTIFACT_REGISTRY_REPO      Artifact Registry repository name (default: cron-jobs)
  IMAGE_NAME                  Docker image name (default: cron-uninterrupt-task)
  CLOUD_RUN_JOB_NAME          Cloud Run Job name (default: cron-uninterrupt-task)
  SCHEDULER_NAME              Cloud Scheduler job name (default: cron-uninterrupt-task-hourly)
  API_ENDPOINT                API endpoint URL (default: https://cloud.blackbox.ai/api/cron/resume-stalled)
  SERVICE_ACCOUNT             Service account email (optional)
  MEMORY                      Memory allocation (default: 512Mi)
  CPU                         CPU allocation (default: 1)
  TIMEOUT                     Job timeout (default: 300s)
  MAX_RETRIES                 Max retry attempts (default: 3)
  SCHEDULE                    Cron schedule (default: 0 * * * *)
  TIMEZONE                    Timezone (default: America/Los_Angeles)

Examples:
  # Deploy with defaults
  ./deploy.sh

  # Deploy to specific project and region
  GCP_PROJECT_ID=my-project GCP_REGION=us-east1 ./deploy.sh

  # Deploy with custom API endpoint
  API_ENDPOINT=https://api.example.com/cron ./deploy.sh

  # Deploy with custom schedule (every 30 minutes)
  SCHEDULE=" +:+ DQ +:+ "*/30 * * * *" +:+ DQ +:+ " ./deploy.sh

".

(** The script run with arguments [args] in environment [environment];
    [$1] is empty when there is no argument. *)
Definition script (args : list string) (environment : gmap string string) : Sh unit :=
  let cfg := load_config environment in
  let arg1 := default "" (head args) in
  if decide (arg1 = "--help" \/ arg1 = "-h") then ShCat usage (ShExit 0)
  else main cfg.

(** The exit status of the script: that of [exit], or 0 when [main] returns,
    its last command being an [echo]. *)
Definition exit_status (r : list ShEvent * nat * (unit + Z)) : Z :=
  match r.2 with
  | inl _ => 0
  | inr c => c
  end.

End Deploy.

(** ** Observations on runs of deploy.sh *)

(** Every command a piece of shell can run satisfies [P]. *)
Fixpoint runs_in {A : Type} (P : list string -> Prop) (p : Deploy.Sh A) : Prop :=
  match p with
  | Deploy.ShRet _ | Deploy.ShExit _ => True
  | Deploy.ShEcho _ _ _ k | Deploy.ShCat _ k => runs_in P k
  | Deploy.ShRun argv _ k => P argv /\ forall r, runs_in P (k r)
  end.

(** [gcloud run jobs deploy ...] *)
Definition is_deploy (argv : list string) : Prop :=
  take 4 argv = ["gcloud"; "run"; "jobs"; "deploy"].

(** [gcloud scheduler jobs create http ...] or [... update http ...] *)
Definition is_scheduler_write (argv : list string) : Prop :=
  take 3 argv = ["gcloud"; "scheduler"; "jobs"]
  /\ (argv !! 3%nat = Some "create" \/ argv !! 3%nat = Some "update").

(** An outside where every command succeeds, [date] prints a time stamp
    and [gcloud config get-value project] prints a project. *)
Definition all_is_well : Deploy.Oracle := fun n argv =>
  match argv with
  | "date" :: _ => (0, "20240101-000000" +:+ String Deploy.LF EmptyString)
  | "gcloud" :: "config" :: _ => (0, "my-project" +:+ String Deploy.LF EmptyString)
  | _ => (0, "")
  end.


#[global] Instance is_deploy_dec (argv : list string) : Decision (is_deploy argv).
Proof. unfold is_deploy. apply _. Defined.

#[global] Instance is_scheduler_write_dec (argv : list string) :
  Decision (is_scheduler_write argv).
Proof. unfold is_scheduler_write. apply _. Defined.

(** The configuration with other resource settings. *)
Definition with_resources (memory cpu timeout max_retries : string)
    (cfg : Deploy.Config) : Deploy.Config :=
  {| Deploy.PROJECT_ID := Deploy.PROJECT_ID cfg; Deploy.REGION := Deploy.REGION cfg;
     Deploy.REPOSITORY_NAME := Deploy.REPOSITORY_NAME cfg;
     Deploy.IMAGE_NAME := Deploy.IMAGE_NAME cfg; Deploy.JOB_NAME := Deploy.JOB_NAME cfg;
     Deploy.SCHEDULER_NAME := Deploy.SCHEDULER_NAME cfg;
     Deploy.API_ENDPOINT := Deploy.API_ENDPOINT cfg;
     Deploy.SERVICE_ACCOUNT := Deploy.SERVICE_ACCOUNT cfg;
     Deploy.MEMORY := memory; Deploy.CPU := cpu; Deploy.TIMEOUT := timeout;
     Deploy.MAX_RETRIES := max_retries;
     Deploy.SCHEDULE := Deploy.SCHEDULE cfg; Deploy.TIMEZONE := Deploy.TIMEZONE cfg |}.

(** Every [exit] a piece of shell can reach has a status satisfying [Q]. *)
Fixpoint exits_with {A : Type} (Q : Z -> Prop) (p : Deploy.Sh A) : Prop :=
  match p with
  | Deploy.ShRet _ => True
  | Deploy.ShExit c => Q c
  | Deploy.ShEcho _ _ _ k | Deploy.ShCat _ k => exits_with Q k
  | Deploy.ShRun _ _ k => forall r, exits_with Q (k r)
  end.

(** The two shapes of a run of the deployment flow, as its commands [cs]
    and its end [r] show it: it stops with a non-zero status without having
    run a deploy command; or it has built and pushed an image, then run one
    deploy command, for that image, and if it returns the deploy command
    and a scheduler write have succeeded. *)
Definition flow_shape (cs : list (list string * Z)) (r : unit + Z) : Prop :=
  (Forall (fun c => ~ is_deploy c.1) cs /\ exists code, r = inr code /\ code <> 0)
  \/ (exists pre first stamp tag argv status rest,
        cs = pre ++ [ first;
                      (["docker"; "build"; "--platform"; "linux/amd64";
                        "-t"; tag; "-t"; stamp; "."], 0);
                      (["docker"; "push"; tag], 0);
                      (["docker"; "push"; stamp], 0) ]
                 ++ (argv, status) :: rest
        /\ Forall (fun c => ~ is_deploy c.1) pre
        /\ ~ is_deploy first.1
        /\ Forall (fun c => ~ is_deploy c.1) rest
        /\ is_deploy argv
        /\ argv !! 5%nat = Some ("--image=" +:+ tag)
        /\ match r with
           | inl _ => status = 0 /\ exists write, (write, 0) ∈ rest /\ is_scheduler_write write
           | inr code => code <> 0
           end).

(** * Proofs *)

(** ** Strings *)

Section Strings.

Lemma ends_with_app (pre suffix : string) : ends_with suffix (pre +:+ suffix) = true.
Proof.
  induction pre as [| c pre IH].
  - change (EmptyString +:+ suffix) with suffix.
    destruct suffix; cbn [ends_with]; rewrite String.eqb_refl; reflexivity.
  - change (String c pre +:+ suffix) with (String c (pre +:+ suffix)).
    cbn [ends_with]. destruct (String.eqb _ _); [reflexivity | exact IH].
Qed.

Lemma last_char_app (pre t : string) :
  t <> EmptyString -> last_char (pre +:+ t) = last_char t.
Proof.
  intros Ht. induction pre as [| c pre IH]; [reflexivity |].
  change (String c pre +:+ t) with (String c (pre +:+ t)).
  cbn [last_char]. destruct (pre +:+ t) eqn:E; [| exact IH].
  destruct pre, t; compute in E; congruence.
Qed.

Lemma ends_with_last (suffix s : string) :
  suffix <> EmptyString -> ends_with suffix s = true -> last_char s = last_char suffix.
Proof.
  intros Hs. induction s as [| c s IH]; cbn [ends_with].
  - destruct (String.eqb_spec EmptyString suffix); congruence.
  - destruct (String.eqb_spec (String c s) suffix) as [<- | _]; [reflexivity |].
    intros H. specialize (IH H). rewrite <- IH.
    destruct s; [| reflexivity].
    cbn [ends_with] in H. destruct (String.eqb_spec EmptyString suffix); congruence.
Qed.

Lemma not_ends_with (suffix pre t : string) :
  suffix <> EmptyString -> t <> EmptyString ->
  last_char t <> last_char suffix ->
  ends_with suffix (pre +:+ t) = false.
Proof.
  intros Hs Ht Hne. destruct (ends_with suffix (pre +:+ t)) eqn:E; [| reflexivity].
  apply ends_with_last in E; [| exact Hs]. rewrite last_char_app in E by exact Ht.
  contradiction.
Qed.

End Strings.

(** ** One invocation *)

Lemma index_js_resolved (w : World) (n : nat) (url : string) (r : Response) :
  axios_get w url call_options = Resolved r ->
  exec w (IndexJs.callAPI url) n =
    ([ ELog [VStr ("[" +:+ toISOString (clock w n) +:+ "] Executing cron")];
       EGet url call_options;
       ELog [VStr ("[" +:+ toISOString (clock w n) +:+ "] API call successful:"); data r] ],
     S n, Returned tt).
Proof.
  intros H. unfold IndexJs.callAPI. cbn. fold call_options. rewrite H. reflexivity.
Qed.

Lemma index_js_rejected (w : World) (n : nat) (url : string) (e : JsError) :
  axios_get w url call_options = Rejected e ->
  exec w (IndexJs.callAPI url) n =
    ([ ELog [VStr ("[" +:+ toISOString (clock w n) +:+ "] Executing cron")];
       EGet url call_options ] ++ failure_events (clock w (S n)) e,
     S (S n), Returned tt).
Proof.
  intros H. unfold IndexJs.callAPI. cbn. fold call_options. rewrite H.
  unfold failure_events. cbn. destruct (response e); reflexivity.
Qed.

Lemma part_000_unbound (process_env : gmap string string) :
  Part000.module_scope process_env !! "getFrequency" = None.
Proof. reflexivity. Qed.

Lemma part_000_exec (w : World) (n : nat) (process_env : gmap string string) (url : string) :
  exec w (Part000.callAPI (Part000.module_scope process_env) url) n =
    (failure_events (clock w (S n))
       {| message := "getFrequency is not defined"; response := None |},
     S (S n), Returned tt).
Proof.
  unfold Part000.callAPI, resolve. cbn -[Part000.module_scope lookup].
  rewrite part_000_unbound. reflexivity.
Qed.

(** ** What a process can ever request *)

Section Invariants.

Context (P : string -> Options -> Prop).

Lemma gets_in_bind {A B : Type} (p : Prog A) (f : A -> Prog B) :
  gets_in P p -> (forall a, gets_in P (f a)) -> gets_in P (bind p f).
Proof.
  intros Hp Hf. induction p as [a | e | k IH | args k IH | args k IH | url o k IH | c];
    cbn in *; auto.
  destruct Hp as [Hu Hk]. split; auto.
Qed.

Lemma gets_in_try_catch {A : Type} (p : Prog A) (h : JsError -> Prog A) :
  gets_in P p -> (forall e, gets_in P (h e)) -> gets_in P (try_catch p h).
Proof.
  intros Hp Hh. induction p as [a | e | k IH | args k IH | args k IH | url o k IH | c];
    cbn in *; auto.
  destruct Hp as [Hu Hk]. split; auto.
Qed.

Lemma requests_snoc (tr : list Event) (e : Event) :
  requests (tr ++ [e]) = requests tr ++ requests [e].
Proof. unfold requests. apply omap_app. Qed.

Lemma exec_gets {A : Type} (w : World) (p : Prog A) (n : nat) :
  gets_in P p -> Forall (fun r => P r.1 r.2) (requests (trace_of (exec w p n))).
Proof.
  revert n. induction p as [a | e | k IH | args k IH | args k IH | url o k IH | c];
    intros n Hp; cbn in *.
  - constructor.
  - constructor.
  - apply IH, Hp.
  - specialize (IH n Hp). destruct (exec w k n) as [[tr n'] out]. exact IH.
  - specialize (IH n Hp). destruct (exec w k n) as [[tr n'] out]. exact IH.
  - destruct Hp as [Hu Hk]. specialize (IH (axios_get w url o) n (Hk _)).
    destruct (exec w (k (axios_get w url o)) n) as [[tr n'] out].
    constructor; [exact Hu | exact IH].
  - constructor.
Qed.

Lemma emit_gets (e : Event) (st : Process) :
  (forall url o, e = EGet url o -> P url o) ->
  process_gets P st -> process_gets P (emit e st).
Proof.
  intros He (Ht & Hp & Hh & Hk). repeat split; cbn; auto.
  rewrite requests_snoc. apply Forall_app. split; [exact Ht |].
  destruct e; cbn; constructor; try constructor. apply (He _ _ eq_refl).
Qed.

Lemma run_sync_gets (w : World) (p : Prog unit) (st : Process) :
  gets_in P p -> process_gets P st -> process_gets P (run_sync w p st).
Proof.
  revert st. induction p as [a | e | k IH | args k IH | args k IH | url o k IH | c];
    intros st Hp Hst; cbn in *.
  - exact Hst.
  - exact Hst.
  - apply IH; [apply Hp | exact Hst].
  - apply IH; [exact Hp |]. apply emit_gets; [discriminate | exact Hst].
  - apply IH; [exact Hp |]. apply emit_gets; [discriminate | exact Hst].
  - destruct Hp as [Hu Hk].
    assert (He : process_gets P (emit (EGet url o) st)).
    { apply emit_gets; [| exact Hst]. intros ? ? [= <- <-]. exact Hu. }
    destruct He as (Ht & Hq & Hh & Hts). repeat split; cbn in *; auto.
    apply Forall_app. split; [exact Hq |]. constructor; [exact Hk | constructor].
  - assert (He : process_gets P (emit (EExit c) st)).
    { apply emit_gets; [discriminate | exact Hst]. }
    exact He.
Qed.

Lemma run_stmt_gets (w : World) (st : Process) (s : Stmt) :
  stmt_gets P s -> process_gets P st -> process_gets P (run_stmt w st s).
Proof.
  intros Hs Hst. unfold run_stmt. destruct (alive st); [| exact Hst].
  destruct s as [args | name body | signal h | expr name t]; cbn in Hs.
  - apply emit_gets; [discriminate | exact Hst].
  - apply run_sync_gets; [exact Hs |]. apply emit_gets; [discriminate | exact Hst].
  - destruct Hst as (Ht & Hq & Hh & Hts). repeat split; cbn; auto.
    apply Forall_app. split; [exact Hh |]. constructor; [exact Hs | constructor].
  - assert (He : process_gets P (emit (ESchedule expr name) st)).
    { apply emit_gets; [discriminate | exact Hst]. }
    destruct He as (Ht & Hq & Hh & Hts). repeat split; cbn in *; auto.
    apply Forall_app. split; [exact Hts |]. constructor; [exact Hs | constructor].
Qed.

Lemma foldl_preserves {S B : Type} (Inv : S -> Prop) (Q : B -> Prop)
    (f : S -> B -> S) (l : list B) (a : S) :
  (forall a b, Q b -> Inv a -> Inv (f a b)) -> Forall Q l -> Inv a -> Inv (foldl f a l).
Proof.
  intros Hf Hl. revert a. induction Hl as [| b l Hb Hl IH]; intros a Ha; cbn; auto.
Qed.

Lemma listeners_gets (signal : string) (st : Process) :
  process_gets P st -> Forall (gets_in P) (listeners signal st).
Proof.
  intros (_ & _ & Hh & _). apply Forall_forall. intros h Hin.
  unfold listeners in Hin. apply list_elem_of_fmap in Hin as [x [-> Hin]].
  apply list_elem_of_filter in Hin as [_ Hin].
  exact (proj1 (Forall_forall _ _) Hh _ Hin).
Qed.

Lemma step_gets (w : World) (st : Process) (i : Input) :
  process_gets P st -> process_gets P (step w st i).
Proof.
  intros Hst. unfold step. destruct (alive st) eqn:Ha; [| exact Hst].
  destruct i as [| signal |].
  - destruct (pending st) as [| [[url o] k] rest] eqn:Hp; [exact Hst |].
    destruct Hst as (Ht & Hq & Hh & Hts). rewrite Hp in Hq.
    apply Forall_cons in Hq as [Hk Hrest].
    apply run_sync_gets; [apply Hk |]. repeat split; cbn; auto.
  - pose proof (listeners_gets signal st Hst) as Hl.
    destruct (listeners signal st) as [| h hs]; [exact Hst |].
    apply (foldl_preserves (process_gets P) (gets_in P)); [| exact Hl | exact Hst].
    intros a b Hb Hinv. unfold run_if_alive. destruct (alive a); [| exact Hinv].
    apply run_sync_gets; assumption.
  - apply (foldl_preserves (process_gets P) (fun t => gets_in P t.2));
      [| apply Hst | exact Hst].
    intros a b Hb Hinv. unfold fire. destruct (alive a); [| exact Hinv].
    apply run_sync_gets; [exact Hb |]. apply emit_gets; [discriminate | exact Hinv].
Qed.

Lemma run_process_gets (w : World) (main : list Stmt) (inputs : list Input) :
  Forall (stmt_gets P) main ->
  Forall (fun r => P r.1 r.2) (requests (trace (run_process w main inputs))).
Proof.
  intros Hmain.
  enough (H : process_gets P (run_process w main inputs)) by apply H.
  unfold run_process.
  apply (foldl_preserves (process_gets P) (fun _ => True)).
  - intros a b _. apply step_gets.
  - apply Forall_true. auto.
  - apply (foldl_preserves (process_gets P) (stmt_gets P)); [| exact Hmain |].
    + intros a b Hb Ha. apply run_stmt_gets; assumption.
    + repeat split; constructor.
Qed.

End Invariants.

Lemma index_js_gets (url : string) :
  gets_in (fun u o => u = url /\ o = call_options) (IndexJs.callAPI url).
Proof.
  unfold IndexJs.callAPI. cbn. intros d. split; [split; reflexivity |].
  intros [r | e]; cbn; [exact I |]. intros d'. destruct (response e); cbn; exact I.
Qed.

Lemma part_000_gets (scope : gmap string Binding) (url : string) :
  gets_in (fun u o => u = url /\ o = call_options) (Part000.callAPI scope url).
Proof.
  unfold Part000.callAPI, resolve. cbn -[lookup]. intros d.
  destruct (scope !! "getFrequency") as [b |]; cbn.
  - destruct b; cbn; try exact (fun _ => I).
    split; [split; reflexivity |].
    intros [r | e]; cbn; [exact I |]. intros d'. destruct (response e); cbn; exact I.
  - intros d'. exact I.
Qed.

(** ** Function entries and registrations *)

Lemma control_snoc (tr : list Event) (e : Event) :
  control_events (tr ++ [e]) = control_events tr ++ control_events [e].
Proof. unfold control_events. apply List.filter_app. Qed.

Lemma run_sync_control (w : World) (p : Prog unit) (st : Process) :
  control_events (trace (run_sync w p st)) = control_events (trace st)
  /\ tasks (run_sync w p st) = tasks st.
Proof.
  revert st. induction p as [a | e | k IH | args k IH | args k IH | url o k IH | c];
    intros st; cbn; auto.
  - destruct (IH (clock w (dates st)) (tick st)) as [-> ->]. auto.
  - destruct (IH (emit (ELog args) st)) as [-> ->]. cbn.
    rewrite control_snoc, app_nil_r. auto.
  - destruct (IH (emit (EError args) st)) as [-> ->]. cbn.
    rewrite control_snoc, app_nil_r. auto.
  - rewrite control_snoc, app_nil_r. auto.
  - rewrite control_snoc, app_nil_r. auto.
Qed.

Lemma step_control (w : World) (st : Process) (i : Input) :
  tasks st = [] ->
  control_events (trace (step w st i)) = control_events (trace st)
  /\ tasks (step w st i) = [].
Proof.
  intros Ht. unfold step. destruct (alive st); [| auto].
  destruct i as [| signal |].
  - destruct (pending st) as [| [[url o] k] rest]; [auto |].
    destruct (run_sync_control w (k (axios_get w url o)) (set_pending rest st)) as [-> ->].
    auto.
  - destruct (listeners signal st) as [| h hs]; [auto |].
    generalize (h :: hs). intros l. revert st Ht.
    induction l as [| x l IH]; intros st Ht; cbn; [auto |].
    assert (Hx : control_events (trace (run_if_alive w x st)) = control_events (trace st)
                 /\ tasks (run_if_alive w x st) = []).
    { unfold run_if_alive. destruct (alive st); [| auto].
      destruct (run_sync_control w x st) as [-> ->]. auto. }
    destruct Hx as [Hc Hk]. destruct (IH _ Hk) as [-> ->]. auto.
  - rewrite Ht. auto.
Qed.

Lemma steps_control (w : World) (inputs : list Input) (st : Process) :
  tasks st = [] ->
  control_events (trace (foldl (step w) st inputs)) = control_events (trace st)
  /\ tasks (foldl (step w) st inputs) = [].
Proof.
  revert st. induction inputs as [| i inputs IH]; intros st Ht; cbn; [auto |].
  destruct (step_control w st i Ht) as [Hc Hk].
  destruct (IH _ Hk) as [-> ->]. auto.
Qed.

Lemma add_handler_if_alive (w : World) (st : Process) (signal : string) (h : Prog unit) :
  trace (run_stmt w st (SProcessOn signal h)) = trace st
  /\ tasks (run_stmt w st (SProcessOn signal h)) = tasks st.
Proof. unfold run_stmt. destruct (alive st); auto. Qed.

(** Loading a module that logs, calls one function and adds listeners. *)
Lemma load_control (w : World) (body : Prog unit) :
  let st := foldl (run_stmt w) start
              [ SLog [VStr "Cron job scheduler started"];
                SLog [VStr "Job will run at the start of every hour (0 * * * *)"];
                SLog [VStr "Running initial API call..."];
                SCall "callAPI" body;
                SProcessOn "SIGTERM" on_SIGTERM;
                SProcessOn "SIGINT" on_SIGINT ] in
  control_events (trace st) = [ECall "callAPI"] /\ tasks st = [].
Proof.
  cbn [foldl]. cbv zeta.
  repeat match goal with
  | |- context [run_stmt w ?s (SProcessOn ?sig ?h)] =>
      destruct (add_handler_if_alive w s sig h) as [-> ->]
  end.
  unfold run_stmt. cbn.
  match goal with |- context [run_sync w body ?s] =>
    destruct (run_sync_control w body s) as [-> ->] end.
  auto.
Qed.

(** ** Reports in a trace *)

Lemma stamped_ends_with (iso suffix : string) :
  ends_with suffix ("[" +:+ iso +:+ suffix) = true.
Proof. exact (ends_with_app ("[" +:+ iso) suffix). Qed.

Lemma executing_is_no_success (iso : string) :
  ends_with "] API call successful:" ("[" +:+ iso +:+ "] Executing cron") = false.
Proof.
  apply (not_ends_with "] API call successful:" ("[" +:+ iso) "] Executing cron");
    [discriminate | discriminate | vm_compute; discriminate].
Qed.

Lemma surfaced_log (v : JsVal) (args : list JsVal) (tr : list Event) :
  ELog args ∈ tr -> v ∈ args -> surfaced v tr = true.
Proof.
  intros Hin Hv. unfold surfaced. apply existsb_exists. exists (ELog args).
  split; [apply list_elem_of_In, Hin | apply bool_decide_eq_true, Hv].
Qed.

Lemma surfaced_error (v : JsVal) (args : list JsVal) (tr : list Event) :
  EError args ∈ tr -> v ∈ args -> surfaced v tr = true.
Proof.
  intros Hin Hv. unfold surfaced. apply existsb_exists. exists (EError args).
  split; [apply list_elem_of_In, Hin | apply bool_decide_eq_true, Hv].
Qed.

Lemma failure_events_report (d : Date) (e : JsError) :
  reports_failure (failure_events d e) = true
  /\ reports_success (failure_events d e) = false
  /\ surfaced (VStr (message e)) (failure_events d e) = true.
Proof.
  unfold failure_events, reports_failure, reports_success.
  cbn [existsb failure_report success_report].
  rewrite stamped_ends_with. repeat split.
  - destruct (response e); reflexivity.
  - eapply surfaced_error; [left |]. set_solver.
Qed.

Lemma failure_events_response (d : Date) (e : JsError) (r : Response) :
  response e = Some r ->
  surfaced (VNum (status r)) (failure_events d e) = true
  /\ surfaced (data r) (failure_events d e) = true.
Proof.
  intros H. unfold failure_events. rewrite H. split.
  - eapply surfaced_error; [right; left |]. set_solver.
  - eapply surfaced_error; [right; right; left |]. set_solver.
Qed.

Lemma index_js_success_trace (d : Date) (url : string) (r : Response) :
  let tr := [ ELog [VStr ("[" +:+ toISOString d +:+ "] Executing cron")];
              EGet url call_options;
              ELog [VStr ("[" +:+ toISOString d +:+ "] API call successful:"); data r] ] in
  reports_success tr = true /\ reports_failure tr = false /\ surfaced (data r) tr = true.
Proof.
  cbv zeta. unfold reports_success, reports_failure.
  cbn [existsb failure_report success_report].
  rewrite stamped_ends_with, executing_is_no_success. repeat split.
  eapply surfaced_log; [right; right; left |]. set_solver.
Qed.

Lemma surfaced_app_r (v : JsVal) (tr1 tr2 : list Event) :
  surfaced v tr2 = true -> surfaced v (tr1 ++ tr2) = true.
Proof. intros H. unfold surfaced in *. rewrite existsb_app, H. apply orb_true_r. Qed.

Lemma index_js_failure_trace (d d' : Date) (url : string) (e : JsError) :
  let tr := [ ELog [VStr ("[" +:+ toISOString d +:+ "] Executing cron")];
              EGet url call_options ] ++ failure_events d' e in
  reports_success tr = false /\ reports_failure tr = true
  /\ surfaced (VStr (message e)) tr = true
  /\ forall r, response e = Some r ->
       surfaced (VNum (status r)) tr = true /\ surfaced (data r) tr = true.
Proof.
  cbv zeta. destruct (failure_events_report d' e) as (Hf & Hs & Hm).
  repeat split.
  - unfold reports_success in *. rewrite existsb_app, Hs.
    cbn [existsb success_report]. rewrite executing_is_no_success. reflexivity.
  - unfold reports_failure in *. rewrite existsb_app, Hf. apply orb_true_r.
  - apply surfaced_app_r, Hm.
  - apply surfaced_app_r, (failure_events_response d' e r H).
  - apply surfaced_app_r, (failure_events_response d' e r H).
Qed.

(** ** Requests of one invocation *)

Lemma failure_events_requests (d : Date) (e : JsError) :
  requests (failure_events d e) = [].
Proof. unfold failure_events. destruct (response e); reflexivity. Qed.

Lemma index_js_requests (w : World) (n : nat) (url : string) :
  requests (trace_of (exec w (IndexJs.callAPI url) n)) = [(url, call_options)].
Proof.
  destruct (axios_get w url call_options) as [r | e] eqn:E.
  - rewrite (index_js_resolved w n url r E). reflexivity.
  - rewrite (index_js_rejected w n url e E). unfold trace_of. cbn [fst].
    unfold requests. rewrite omap_app. fold (requests (failure_events (clock w (S n)) e)).
    rewrite failure_events_requests. reflexivity.
Qed.

(** With [getFrequency] bound to a function, part_000 logs the label and
    sends the same request as index.js: the label is not part of it. *)
Lemma part_000_with_getFrequency (w : World) (n : nat) (scope : gmap string Binding)
    (f : Z -> string) (url : string) :
  scope !! "getFrequency" = Some (BFunction f) ->
  exists rest,
    trace_of (exec w (Part000.callAPI scope url) n) =
      ELog [VStr ("[" +:+ toISOString (clock w n) +:+ "] Current hour: "
                  +:+ pretty (getHours (clock w n)) +:+ ", Frequency: "
                  +:+ f (getHours (clock w n)))]
      :: EGet url call_options :: rest
    /\ requests rest = [].
Proof.
  intros H. unfold Part000.callAPI, resolve. cbn -[lookup pretty]. rewrite H.
  cbn -[pretty]. fold call_options.
  destruct (axios_get w url call_options) as [r | e]; cbn -[pretty].
  - eexists. split; reflexivity.
  - destruct (response e); eexists; split; reflexivity.
Qed.

(** ** The label table *)

Lemma hour_cases (h : Z) :
  0 <= h <= 23 ->
  h ∈ [0; 1; 2; 3; 4; 5; 6; 7; 8; 9; 10; 11; 12; 13; 14; 15; 16; 17; 18; 19;
       20; 21; 22; 23].
Proof. intros H. rewrite !elem_of_cons. lia. Qed.

(** ** part_000 never requests *)

Lemma part_000_quiet (process_env : gmap string string) (url : string) :
  gets_in (fun _ _ => False) (Part000.callAPI (Part000.module_scope process_env) url).
Proof.
  unfold Part000.callAPI, resolve. cbn -[Part000.module_scope lookup].
  rewrite part_000_unbound. cbn. intros d d'. exact I.
Qed.

Lemma part_000_process_requests (w : World) (process_env : gmap string string)
    (inputs : list Input) :
  requests (trace (run_process w (Part000.main process_env) inputs)) = [].
Proof.
  pose proof (run_process_gets (fun _ _ => False) w (Part000.main process_env) inputs) as H.
  destruct (requests (trace (run_process w (Part000.main process_env) inputs)))
    as [| r rs]; [reflexivity |].
  exfalso. assert (HF : Forall (fun r : string * Options => False) (r :: rs)).
  { apply H. unfold Part000.main. repeat constructor; cbn. apply part_000_quiet. }
  inversion HF; assumption.
Qed.

(** ** What each variant can request *)

Lemma index_js_process_gets (w : World) (process_env : gmap string string)
    (inputs : list Input) :
  Forall (fun r => r.1 = API_ENDPOINT process_env /\ r.2 = call_options)
    (requests (trace (run_process w (IndexJs.main process_env) inputs))).
Proof.
  apply (run_process_gets (fun u o => u = API_ENDPOINT process_env /\ o = call_options)).
  unfold IndexJs.main. repeat constructor; cbn [stmt_gets].
  apply index_js_gets.
Qed.

Lemma part_000_process_gets (w : World) (process_env : gmap string string)
    (inputs : list Input) :
  Forall (fun r => r.1 = API_ENDPOINT process_env /\ r.2 = call_options)
    (requests (trace (run_process w (Part000.main process_env) inputs))).
Proof.
  apply (run_process_gets (fun u o => u = API_ENDPOINT process_env /\ o = call_options)).
  unfold Part000.main. repeat constructor; cbn [stmt_gets].
  apply part_000_gets.
Qed.

(** ** The status decides the path *)

(** With axios's default [validateStatus], an answered request of index.js
    is reported as a success exactly when the status is in 200..299, and as
    a failure otherwise. *)
Lemma status_decides_path (process_env : gmap string string) (r : Response) (n : nat) :
  reports_success (index_js_run (world_of process_env (Answered r)) n)
    = validateStatus (status r)
  /\ reports_failure (index_js_run (world_of process_env (Answered r)) n)
     = negb (validateStatus (status r)).
Proof.
  unfold index_js_run.
  destruct (validateStatus (status r)) eqn:V.
  - rewrite (index_js_resolved _ n _ r); [| cbn; rewrite V; reflexivity].
    unfold trace_of. cbn [fst negb].
    destruct (index_js_success_trace
                (clock (world_of process_env (Answered r)) n)
                (API_ENDPOINT process_env) r) as (Hs & Hf & _).
    split; assumption.
  - rewrite (index_js_rejected _ n _
               {| message := "Request failed with status code " +:+ pretty (status r);
                  response := Some r |}); [| cbn -[pretty]; rewrite V; reflexivity].
    unfold trace_of. cbn [fst negb].
    destruct (index_js_failure_trace
                (clock (world_of process_env (Answered r)) n)
                (clock (world_of process_env (Answered r)) (S n))
                (API_ENDPOINT process_env)
                {| message := "Request failed with status code " +:+ pretty (status r);
                   response := Some r |}) as (Hs & Hf & _).
    split; assumption.
Qed.

(** * The claims *)

(** C1, as the code has it.  In index.js, when an HTTP response [r] is
    received, what is reported depends on how [axios.get] settles.  If it
    resolves with [r], the invocation reports success and surfaces the body
    of [r] (the status is not among the arguments logged).  If it rejects
    with [r] attached to the error, the invocation reports failure and
    surfaces the error message, the status and the body of [r]. *)
Theorem received_response_report (w : World) (n : nat) (r : Response) :
  http_response (axios_get w (API_ENDPOINT (env w)) call_options) = Some r ->
  match axios_get w (API_ENDPOINT (env w)) call_options with
  | Resolved _ =>
      index_js_run w n =
        [ ELog [VStr ("[" +:+ toISOString (clock w n) +:+ "] Executing cron")];
          EGet (API_ENDPOINT (env w)) call_options;
          ELog [VStr ("[" +:+ toISOString (clock w n) +:+ "] API call successful:");
                data r] ]
      /\ reports_success (index_js_run w n) = true
      /\ reports_failure (index_js_run w n) = false
      /\ surfaced (data r) (index_js_run w n) = true
  | Rejected e =>
      index_js_run w n =
        [ ELog [VStr ("[" +:+ toISOString (clock w n) +:+ "] Executing cron")];
          EGet (API_ENDPOINT (env w)) call_options ]
        ++ failure_events (clock w (S n)) e
      /\ reports_success (index_js_run w n) = false
      /\ reports_failure (index_js_run w n) = true
      /\ surfaced (VStr (message e)) (index_js_run w n) = true
      /\ surfaced (VNum (status r)) (index_js_run w n) = true
      /\ surfaced (data r) (index_js_run w n) = true
  end.
Proof.
  intros Hr. unfold index_js_run.
  destruct (axios_get w (API_ENDPOINT (env w)) call_options) as [r' | e] eqn:E.
  - cbn in Hr. injection Hr as ->.
    rewrite (index_js_resolved w n _ r E). unfold trace_of. cbn [fst].
    split; [reflexivity |].
    apply (index_js_success_trace (clock w n) (API_ENDPOINT (env w)) r).
  - cbn in Hr.
    rewrite (index_js_rejected w n _ e E). unfold trace_of. cbn [fst].
    destruct (index_js_failure_trace (clock w n) (clock w (S n)) (API_ENDPOINT (env w)) e)
      as (Hs & Hf & Hm & Hresp).
    destruct (Hresp r Hr) as [Hst Hd]. repeat split; assumption.
Qed.

Lemma received_response_report_witness :
  http_response (axios_get world_500 (API_ENDPOINT (env world_500)) call_options)
    = Some {| status := 500; data := VStr "Internal Server Error" |}
  /\ reports_failure (index_js_run world_500 0) = true.
Proof.
  split; [reflexivity |].
  exact (proj1 (proj2 (proj2
    (received_response_report world_500 0
       {| status := 500; data := VStr "Internal Server Error" |} eq_refl)))).
Defined.

(** C1 as stated fails on index.js.  A 500 response is received, yet the
    invocation reports failure and not success; and a 200 response is
    reported as a success whose arguments do not include the status. *)
Lemma error_status_reported_as_failure :
  (http_response (axios_get world_500 (API_ENDPOINT (env world_500)) call_options)
     = Some {| status := 500; data := VStr "Internal Server Error" |}
   /\ reports_success (index_js_run world_500 0) = false
   /\ reports_failure (index_js_run world_500 0) = true)
  /\ (http_response (axios_get world_200 (API_ENDPOINT (env world_200)) call_options)
        = Some {| status := 200; data := VStr "[]" |}
      /\ reports_success (index_js_run world_200 0) = true
      /\ surfaced (VNum 200) (index_js_run world_200 0) = false).
Proof. vm_compute. repeat split; reflexivity. Qed.

(** C2.  For every hour from 0 to 23 the label function returns exactly
    one label, the one of the only row of the table that lists the hour:
    0 gives 24x; 12 gives 12x; 6 and 18 give 6x; 4, 8, 16, 20 give 4x;
    3, 9, 15, 21 give 3x; 2, 10, 14, 22 give 2x; 1, 5, 7, 11, 13, 17, 19,
    23 give 1x. *)
Theorem classify_mapping (h : Z) :
  0 <= h <= 23 ->
  (filter (fun row => h ∈ row.2) label_table).*1 = [classify h].
Proof.
  intros Hh. apply hour_cases in Hh.
  rewrite !elem_of_cons, elem_of_nil in Hh.
  repeat (destruct Hh as [-> | Hh]); try contradiction; vm_compute; reflexivity.
Qed.

Lemma classify_mapping_witness :
  0 <= 18 <= 23 /\ (filter (fun row => 18 ∈ row.2) label_table).*1 = ["6x"].
Proof. split; [lia | apply (classify_mapping 18); lia]. Defined.

(** C3.  In part_000 nothing declares [getFrequency].  Every invocation of
    [callAPI] throws the ReferenceError before the request, the [catch]
    block reports it, the function returns normally, the success report is
    never written, and no request is sent: neither by one invocation nor at
    any time in the life of the process. *)
Theorem part_000_always_fails (w : World) (n : nat) (inputs : list Input) :
  Part000.module_scope (env w) !! "getFrequency" = None
  /\ exec w (Part000.callAPI (Part000.module_scope (env w)) (API_ENDPOINT (env w))) n
     = ([ EError [VStr ("[" +:+ toISOString (clock w (S n)) +:+ "] API call failed:");
                  VStr "getFrequency is not defined"] ],
        S (S n), Returned tt)
  /\ reports_failure (part_000_run w n) = true
  /\ reports_success (part_000_run w n) = false
  /\ requests (part_000_run w n) = []
  /\ requests (trace (run_process w (Part000.main (env w)) inputs)) = [].
Proof.
  split; [apply part_000_unbound |].
  split; [apply part_000_exec |].
  unfold part_000_run. rewrite part_000_exec. unfold trace_of. cbn [fst].
  destruct (failure_events_report (clock w (S n)) getFrequency_unbound) as (Hf & Hs & _).
  split; [exact Hf |]. split; [exact Hs |]. split; [reflexivity |].
  apply part_000_process_requests.
Qed.

(** C4, evaluated on both variants.  One invocation of index.js sends
    exactly one request, however it settles; one invocation of part_000
    sends none. *)
Theorem requests_per_invocation (w : World) (n : nat) :
  length (requests (index_js_run w n)) = 1%nat
  /\ length (requests (part_000_run w n)) = 0%nat.
Proof.
  unfold index_js_run, part_000_run.
  rewrite index_js_requests, part_000_exec. split; reflexivity.
Qed.

(** C5.  When the request of an index.js invocation is rejected with error
    [e], the trace is the two events before the settlement followed by the
    failure report: the error message, then the status and the body of the
    attached response if there is one, and nothing more if there is none.
    The [catch] block of part_000 writes the same report for any error. *)
Theorem rejected_request_report (w : World) (n : nat) (e : JsError) :
  axios_get w (API_ENDPOINT (env w)) call_options = Rejected e ->
  index_js_run w n =
    [ ELog [VStr ("[" +:+ toISOString (clock w n) +:+ "] Executing cron")];
      EGet (API_ENDPOINT (env w)) call_options ]
    ++ failure_events (clock w (S n)) e
  /\ reports_failure (index_js_run w n) = true
  /\ reports_success (index_js_run w n) = false
  /\ surfaced (VStr (message e)) (index_js_run w n) = true
  /\ match response e with
     | Some r =>
         surfaced (VNum (status r)) (index_js_run w n) = true
         /\ surfaced (data r) (index_js_run w n) = true
     | None =>
         failure_events (clock w (S n)) e =
           [ EError [VStr ("[" +:+ toISOString (clock w (S n)) +:+ "] API call failed:");
                     VStr (message e)] ]
     end
  /\ exec w (Part000.on_error e) n = (failure_events (clock w n) e, S n, Returned tt)
  /\ exec w (IndexJs.on_error e) n = (failure_events (clock w n) e, S n, Returned tt).
Proof.
  intros E. unfold index_js_run.
  rewrite (index_js_rejected w n _ e E). unfold trace_of. cbn [fst].
  destruct (index_js_failure_trace (clock w n) (clock w (S n)) (API_ENDPOINT (env w)) e)
    as (Hs & Hf & Hm & Hresp).
  split; [reflexivity |]. split; [exact Hf |]. split; [exact Hs |].
  split; [exact Hm |]. split; [| split].
  - destruct (response e) as [r |] eqn:Hr; [exact (Hresp r eq_refl) |].
    unfold failure_events. rewrite Hr. reflexivity.
  - unfold Part000.on_error, failure_events. cbn. destruct (response e); reflexivity.
  - unfold IndexJs.on_error, failure_events. cbn. destruct (response e); reflexivity.
Qed.

Lemma rejected_request_report_witness :
  axios_get world_down (API_ENDPOINT (env world_down)) call_options
    = Rejected {| message := "connect ECONNREFUSED 127.0.0.1:443"; response := None |}
  /\ reports_failure (index_js_run world_down 0) = true.
Proof.
  split; [reflexivity |].
  exact (proj1 (proj2
    (rejected_request_report world_down 0
       {| message := "connect ECONNREFUSED 127.0.0.1:443"; response := None |} eq_refl))).
Defined.

(** C6, evaluated on both variants.  The one request of an index.js
    invocation is a GET of exactly the configured endpoint whose options
    have no [params] entry.  An invocation of part_000 stops at the lookup
    of [getFrequency]: no label is computed, the trace is the failure
    report alone, and no request is sent. *)
Theorem request_target (w : World) (n : nat) :
  requests (index_js_run w n) = [(API_ENDPOINT (env w), call_options)]
  /\ call_options !! "params" = None
  /\ part_000_run w n = failure_events (clock w (S n)) getFrequency_unbound
  /\ requests (part_000_run w n) = [].
Proof.
  unfold index_js_run, part_000_run.
  rewrite index_js_requests, part_000_exec. repeat split; reflexivity.
Qed.

(** C7.  When the environment the process starts in has no entry
    [API_ENDPOINT], the constant is the default URL, the request of an
    index.js invocation goes to it, and every request either variant sends
    at any later time goes to it, whatever the world has become. *)
Theorem default_endpoint (process_env : gmap string string) (w : World) (n : nat)
    (inputs : list Input) :
  process_env !! "API_ENDPOINT" = None ->
  API_ENDPOINT process_env = "https://cloud.blackbox.ai/api/cron/resume-stalled"
  /\ requests (trace_of (exec w (IndexJs.callAPI (API_ENDPOINT process_env)) n))
     = [("https://cloud.blackbox.ai/api/cron/resume-stalled", call_options)]
  /\ Forall (fun r => r.1 = "https://cloud.blackbox.ai/api/cron/resume-stalled")
       (requests (trace (run_process w (IndexJs.main process_env) inputs)))
  /\ Forall (fun r => r.1 = "https://cloud.blackbox.ai/api/cron/resume-stalled")
       (requests (trace (run_process w (Part000.main process_env) inputs))).
Proof.
  intros Hunset.
  assert (Hdef : API_ENDPOINT process_env
                 = "https://cloud.blackbox.ai/api/cron/resume-stalled").
  { unfold API_ENDPOINT. rewrite Hunset. reflexivity. }
  split; [exact Hdef |]. split; [rewrite index_js_requests, Hdef; reflexivity |].
  rewrite <- Hdef. split.
  - eapply Forall_impl; [apply (index_js_process_gets w process_env inputs) |].
    intros r [Hu _]. exact Hu.
  - eapply Forall_impl; [apply (part_000_process_gets w process_env inputs) |].
    intros r [Hu _]. exact Hu.
Qed.

Lemma default_endpoint_witness :
  (∅ : gmap string string) !! "API_ENDPOINT" = None
  /\ API_ENDPOINT ∅ = "https://cloud.blackbox.ai/api/cron/resume-stalled".
Proof.
  split; [reflexivity |].
  exact (proj1 (default_endpoint ∅ world_200 0 [IResponse; IHour; ISignal "SIGTERM"]
                  eq_refl)).
Defined.

(** C8.  Every request either variant ever sends carries exactly the
    options [{ timeout: 30000 }]: the timeout is 30000 ms and [timeout] is
    the only key, so no body, headers, authentication or query parameters
    are set.
    For part_000 this holds in whatever scope [getFrequency] is looked up. *)
Theorem request_options (w : World) (process_env : gmap string string) (n : nat)
    (inputs : list Input) (scope : gmap string Binding) (url : string) :
  Forall (fun r => r.2 = call_options)
    (requests (trace (run_process w (IndexJs.main process_env) inputs)))
  /\ Forall (fun r => r.2 = call_options)
       (requests (trace (run_process w (Part000.main process_env) inputs)))
  /\ requests (trace_of (exec w (IndexJs.callAPI url) n)) = [(url, call_options)]
  /\ Forall (fun r => r.2 = call_options)
       (requests (trace_of (exec w (Part000.callAPI scope url) n)))
  /\ call_options !! "timeout" = Some (VNum 30000)
  /\ dom call_options = ({[ "timeout" ]} : gset string).
Proof.
  split.
  { eapply Forall_impl; [apply (index_js_process_gets w process_env inputs) |].
    intros r [_ Ho]. exact Ho. }
  split.
  { eapply Forall_impl; [apply (part_000_process_gets w process_env inputs) |].
    intros r [_ Ho]. exact Ho. }
  split; [apply index_js_requests |].
  split.
  { eapply Forall_impl; [apply exec_gets, (part_000_gets scope url) |].
    intros r [_ Ho]. exact Ho. }
  split; [reflexivity |].
  unfold call_options. apply dom_singleton_L.
Qed.

(** C9.  Whatever reaches the process after the module is loaded
    (settlements, signals, hours passing), [callAPI] is entered exactly
    once, nothing is ever registered with [cron.schedule], and no task is
    held, in both variants; [cron] is bound to the imported module. *)
Theorem no_in_process_schedule (w : World) (process_env : gmap string string)
    (inputs : list Input) :
  control_events (trace (run_process w (IndexJs.main process_env) inputs))
    = [ECall "callAPI"]
  /\ tasks (run_process w (IndexJs.main process_env) inputs) = []
  /\ control_events (trace (run_process w (Part000.main process_env) inputs))
     = [ECall "callAPI"]
  /\ tasks (run_process w (Part000.main process_env) inputs) = []
  /\ IndexJs.module_scope process_env !! "cron" = Some (BModule "node-cron")
  /\ Part000.module_scope process_env !! "cron" = Some (BModule "node-cron").
Proof.
  unfold run_process, IndexJs.main, Part000.main.
  destruct (load_control w (IndexJs.callAPI (API_ENDPOINT process_env))) as [Hc Ht].
  destruct (load_control w (Part000.callAPI (Part000.module_scope process_env)
                                            (API_ENDPOINT process_env))) as [Hc' Ht'].
  cbv zeta in Hc, Ht, Hc', Ht'.
  destruct (steps_control w inputs _ Ht) as [-> ->].
  destruct (steps_control w inputs _ Ht') as [-> ->].
  repeat split; try assumption; reflexivity.
Qed.

(** C10.  When [API_ENDPOINT] is set to the empty string the constant is
    the default URL, as it is without the entry, and the whole process
    behaves as it does without the entry, in both variants. *)
Theorem empty_endpoint_is_default (process_env : gmap string string) (w : World)
    (inputs : list Input) :
  process_env !! "API_ENDPOINT" = Some "" ->
  API_ENDPOINT process_env = "https://cloud.blackbox.ai/api/cron/resume-stalled"
  /\ API_ENDPOINT process_env = API_ENDPOINT (delete "API_ENDPOINT" process_env)
  /\ run_process w (IndexJs.main process_env) inputs
     = run_process w (IndexJs.main (delete "API_ENDPOINT" process_env)) inputs
  /\ run_process w (Part000.main process_env) inputs
     = run_process w (Part000.main (delete "API_ENDPOINT" process_env)) inputs.
Proof.
  intros Hempty.
  assert (Hdef : API_ENDPOINT process_env
                 = "https://cloud.blackbox.ai/api/cron/resume-stalled").
  { unfold API_ENDPOINT. rewrite Hempty. reflexivity. }
  assert (Hdel : API_ENDPOINT (delete "API_ENDPOINT" process_env)
                 = "https://cloud.blackbox.ai/api/cron/resume-stalled").
  { unfold API_ENDPOINT. rewrite lookup_delete_eq. reflexivity. }
  split; [exact Hdef |]. split; [congruence |].
  unfold IndexJs.main, Part000.main, Part000.module_scope.
  rewrite Hdef, Hdel. split; reflexivity.
Qed.

Lemma empty_endpoint_is_default_witness :
  ({[ "API_ENDPOINT" := "" ]} : gmap string string) !! "API_ENDPOINT" = Some ""
  /\ API_ENDPOINT {[ "API_ENDPOINT" := "" ]}
     = "https://cloud.blackbox.ai/api/cron/resume-stalled".
Proof.
  split; [reflexivity |].
  exact (proj1 (empty_endpoint_is_default {[ "API_ENDPOINT" := "" ]} world_200
                  [IResponse] eq_refl)).
Defined.

(** * Further properties *)

(** ** Bodies that cannot end the process *)


Lemma index_js_stays (url : string) : stays (IndexJs.callAPI url).
Proof.
  unfold IndexJs.callAPI. cbn. intros d [r | e]; cbn; [exact I |].
  intros d'. destruct (response e); cbn; exact I.
Qed.

Lemma part_000_stays (scope : gmap string Binding) (url : string) :
  stays (Part000.callAPI scope url).
Proof.
  unfold Part000.callAPI, resolve. cbn -[lookup]. intros d.
  destruct (scope !! "getFrequency") as [b |]; cbn.
  - destruct b; cbn; try (intros d'; exact I).
    intros [r | e]; cbn; [exact I |]. intros d'. destruct (response e); cbn; exact I.
  - intros d'. exact I.
Qed.

Lemma run_sync_stays (w : World) (p : Prog unit) (st : Process) :
  stays p ->
  alive (run_sync w p st) = alive st
  /\ tasks (run_sync w p st) = tasks st
  /\ handlers (run_sync w p st) = handlers st
  /\ (Forall (fun q => forall s, stays (q.2 s)) (pending st) ->
      Forall (fun q => forall s, stays (q.2 s)) (pending (run_sync w p st)))
  /\ existsb is_exit (trace (run_sync w p st)) = existsb is_exit (trace st).
Proof.
  revert st. induction p as [a | e | k IH | args k IH | args k IH | url o k IH | c];
    intros st Hp; cbn in *; try contradiction.
  - auto.
  - destruct (IH (clock w (dates st)) (tick st) (Hp _)) as (-> & -> & -> & Hq & ->).
    auto.
  - destruct (IH (emit (ELog args) st) Hp) as (-> & -> & -> & Hq & ->).
    cbn. rewrite existsb_app. cbn. rewrite !orb_false_r. auto.
  - destruct (IH (emit (EError args) st) Hp) as (-> & -> & -> & Hq & ->).
    cbn. rewrite existsb_app. cbn. rewrite !orb_false_r. auto.
  - repeat split; auto.
    + intros Hq. apply Forall_app. split; [exact Hq |].
      constructor; [exact Hp | constructor].
    + rewrite existsb_app. cbn. rewrite !orb_false_r. reflexivity.
Qed.

Lemma dead_steps (w : World) (inputs : list Input) (st : Process) :
  alive st = false -> foldl (step w) st inputs = st.
Proof.
  intros Hd. induction inputs as [| i inputs IH]; cbn; [reflexivity |].
  unfold step at 2. rewrite Hd. exact IH.
Qed.

Lemma step_quiet_input (w : World) (st : Process) (i : Input) :
  settled_state st -> is_signal i = false ->
  settled_state (step w st i)
  /\ existsb is_exit (trace (step w st i)) = existsb is_exit (trace st).
Proof.
  intros (Ha & Ht & Hh & Hq) Hi. unfold step. rewrite Ha.
  destruct i as [| signal |]; [| discriminate |].
  - destruct (pending st) as [| [[url o] k] rest] eqn:Hp.
    + repeat split; try assumption. rewrite Hp. constructor.
    + apply Forall_cons in Hq as [Hk Hrest].
      destruct (run_sync_stays w (k (axios_get w url o)) (set_pending rest st) (Hk _))
        as (Ha' & Ht' & Hh' & Hq' & Hx').
      cbn in Ha', Ht', Hh', Hq', Hx'.
      repeat split; [congruence | congruence | congruence | apply Hq', Hrest | exact Hx'].
  - rewrite Ht. repeat split; assumption.
Qed.

Lemma steps_quiet_inputs (w : World) (inputs : list Input) (st : Process) :
  settled_state st -> forallb (fun i => negb (is_signal i)) inputs = true ->
  settled_state (foldl (step w) st inputs)
  /\ existsb is_exit (trace (foldl (step w) st inputs)) = existsb is_exit (trace st).
Proof.
  revert st. induction inputs as [| i inputs IH]; intros st Hst Hin; cbn; [auto |].
  cbn in Hin. apply andb_true_iff in Hin as [Hi Hin]. apply negb_true_iff in Hi.
  destruct (step_quiet_input w st i Hst Hi) as [Hst' Hx].
  destruct (IH _ Hst' Hin) as [Hst'' Hx']. split; [exact Hst'' | congruence].
Qed.

Lemma step_signal (w : World) (st : Process) (signal : string) :
  settled_state st -> signal = "SIGTERM" \/ signal = "SIGINT" ->
  trace (step w st (ISignal signal)) = trace st ++ shutdown_events signal
  /\ alive (step w st (ISignal signal)) = false.
Proof.
  intros (Ha & Ht & Hh & Hq) Hs. unfold step. rewrite Ha.
  assert (Hl : listeners signal st
               = [ConsoleLog [VStr (signal +:+ " received, shutting down gracefully")]
                             (process_exit 0)]).
  { unfold listeners. rewrite Hh. destruct Hs as [-> | ->]; reflexivity. }
  rewrite Hl. cbn. unfold run_if_alive. rewrite Ha. cbn.
  rewrite <- app_assoc. split; reflexivity.
Qed.

(** Loading either module leaves a settled state, provided the body called
    cannot end the process. *)
Lemma load_settled (w : World) (body : Prog unit) :
  stays body ->
  settled_state
    (foldl (run_stmt w) start
       [ SLog [VStr "Cron job scheduler started"];
         SLog [VStr "Job will run at the start of every hour (0 * * * *)"];
         SLog [VStr "Running initial API call..."];
         SCall "callAPI" body;
         SProcessOn "SIGTERM" on_SIGTERM;
         SProcessOn "SIGINT" on_SIGINT ])
  /\ existsb is_exit
       (trace (foldl (run_stmt w) start
          [ SLog [VStr "Cron job scheduler started"];
            SLog [VStr "Job will run at the start of every hour (0 * * * *)"];
            SLog [VStr "Running initial API call..."];
            SCall "callAPI" body;
            SProcessOn "SIGTERM" on_SIGTERM;
            SProcessOn "SIGINT" on_SIGINT ])) = false.
Proof.
  intros Hb. cbn [foldl].
  set (s0 := run_stmt w (run_stmt w (run_stmt w start _) _) _).
  assert (Hs1 : run_stmt w s0 (SCall "callAPI" body)
                = run_sync w body (emit (ECall "callAPI") s0)) by reflexivity.
  rewrite Hs1.
  destruct (run_sync_stays w body (emit (ECall "callAPI") s0) Hb)
    as (Ha & Ht & Hh & Hq & Hx).
  set (s1 := run_sync w body (emit (ECall "callAPI") s0)) in *.
  change (alive s1 = true) in Ha. change (tasks s1 = []) in Ht.
  change (handlers s1 = []) in Hh.
  assert (Hx' : existsb is_exit (trace s1) = false) by (rewrite Hx; reflexivity).
  specialize (Hq (Forall_nil_2 _)).
  unfold run_stmt. rewrite Ha. cbn. rewrite Ha. cbn.
  unfold settled_state. cbn. rewrite Ha, Ht, Hh. repeat split; assumption.
Qed.

Lemma idle_steps (w : World) (inputs : list Input) (st : Process) :
  pending st = [] -> tasks st = [] ->
  forallb (fun i => negb (is_signal i)) inputs = true ->
  foldl (step w) st inputs = st.
Proof.
  intros Hp Ht. induction inputs as [| i inputs IH]; intros Hin; cbn; [reflexivity |].
  cbn in Hin. apply andb_true_iff in Hin as [Hi Hin].
  assert (Hstep : step w st i = st).
  { unfold step. destruct (alive st); [| reflexivity].
    destruct i as [| signal |]; [rewrite Hp | discriminate | rewrite Ht]; reflexivity. }
  rewrite Hstep. apply IH, Hin.
Qed.

Lemma index_js_loaded (w : World) (process_env : gmap string string) :
  trace (foldl (run_stmt w) start (IndexJs.main process_env)) =
    startup_lines
    ++ [ ECall "callAPI";
         ELog [VStr ("[" +:+ toISOString (clock w 0) +:+ "] Executing cron")];
         EGet (API_ENDPOINT process_env) call_options ].
Proof. reflexivity. Qed.

Lemma part_000_loaded (w : World) (process_env : gmap string string) :
  trace (foldl (run_stmt w) start (Part000.main process_env)) =
    startup_lines ++ ECall "callAPI" :: failure_events (clock w 1) getFrequency_unbound
  /\ pending (foldl (run_stmt w) start (Part000.main process_env)) = [].
Proof.
  unfold Part000.main, Part000.callAPI, resolve. cbn -[Part000.module_scope lookup].
  rewrite part_000_unbound. split; reflexivity.
Qed.


Lemma shutdown_from (w : World) (st : Process) (signal : string)
    (before after : list Input) :
  settled_state st -> signal = "SIGTERM" \/ signal = "SIGINT" ->
  forallb (fun i => negb (is_signal i)) before = true ->
  trace (foldl (step w) st (before ++ ISignal signal :: after))
    = trace (foldl (step w) st before) ++ shutdown_events signal
  /\ alive (foldl (step w) st (before ++ ISignal signal :: after)) = false.
Proof.
  intros Hs Hsig Hin.
  destruct (steps_quiet_inputs w before st Hs Hin) as [Hb _].
  destruct (step_signal w _ signal Hb Hsig) as [Ht Hd].
  rewrite foldl_app. cbn [foldl]. rewrite (dead_steps w after _ Hd).
  split; assumption.
Qed.

(** ** The extra properties *)

(** X1.  A non-empty [API_ENDPOINT] in the environment is used as it is: it
    is the constant, the target of the request of an index.js invocation,
    and the target of every request either process ever sends. *)
Theorem configured_endpoint_used (process_env : gmap string string) (url : string)
    (w : World) (n : nat) (inputs : list Input) :
  process_env !! "API_ENDPOINT" = Some url ->
  url <> "" ->
  API_ENDPOINT process_env = url
  /\ requests (trace_of (exec w (IndexJs.callAPI (API_ENDPOINT process_env)) n))
     = [(url, call_options)]
  /\ Forall (fun r => r.1 = url)
       (requests (trace (run_process w (IndexJs.main process_env) inputs)))
  /\ Forall (fun r => r.1 = url)
       (requests (trace (run_process w (Part000.main process_env) inputs))).
Proof.
  intros Hset Hne.
  assert (Hurl : API_ENDPOINT process_env = url).
  { unfold API_ENDPOINT. rewrite Hset. destruct url; [contradiction | reflexivity]. }
  split; [exact Hurl |]. split; [rewrite index_js_requests, Hurl; reflexivity |].
  rewrite <- Hurl. split.
  - eapply Forall_impl; [apply (index_js_process_gets w process_env inputs) |].
    intros r [Hu _]. exact Hu.
  - eapply Forall_impl; [apply (part_000_process_gets w process_env inputs) |].
    intros r [Hu _]. exact Hu.
Qed.

Lemma configured_endpoint_used_witness :
  ({[ "API_ENDPOINT" := "https://api.example.com/endpoint" ]} : gmap string string)
    !! "API_ENDPOINT" = Some "https://api.example.com/endpoint"
  /\ API_ENDPOINT {[ "API_ENDPOINT" := "https://api.example.com/endpoint" ]}
     = "https://api.example.com/endpoint".
Proof.
  split; [reflexivity |].
  exact (proj1 (configured_endpoint_used
                  {[ "API_ENDPOINT" := "https://api.example.com/endpoint" ]}
                  "https://api.example.com/endpoint" world_200 0 [IResponse]
                  eq_refl ltac:(discriminate))).
Defined.







(** X6.  A shutdown signal that arrives before the response abandons the
    invocation of index.js: the request has been sent, the process exits,
    and neither the success report nor the failure report is ever written,
    whatever arrives afterwards. *)
Theorem signal_abandons_request (w : World) (process_env : gmap string string)
    (signal : string) (after : list Input) :
  signal = "SIGTERM" \/ signal = "SIGINT" ->
  trace (run_process w (IndexJs.main process_env) (ISignal signal :: after))
    = startup_lines
      ++ [ ECall "callAPI";
           ELog [VStr ("[" +:+ toISOString (clock w 0) +:+ "] Executing cron")];
           EGet (API_ENDPOINT process_env) call_options ]
      ++ shutdown_events signal
  /\ requests (trace (run_process w (IndexJs.main process_env) (ISignal signal :: after)))
     = [(API_ENDPOINT process_env, call_options)]
  /\ report_count
       (trace (run_process w (IndexJs.main process_env) (ISignal signal :: after)))
     = 0%nat.
Proof.
  intros Hsig.
  assert (Htr : trace (run_process w (IndexJs.main process_env) (ISignal signal :: after))
                = startup_lines
                  ++ [ ECall "callAPI";
                       ELog [VStr ("[" +:+ toISOString (clock w 0) +:+ "] Executing cron")];
                       EGet (API_ENDPOINT process_env) call_options ]
                  ++ shutdown_events signal).
  { unfold run_process.
    destruct (load_settled w (IndexJs.callAPI (API_ENDPOINT process_env))
                (index_js_stays _)) as [Hs _].
    fold (IndexJs.main process_env) in Hs.
    destruct (shutdown_from w _ signal [] after Hs Hsig eq_refl) as [Ht _].
    change ([] ++ ISignal signal :: after) with (ISignal signal :: after) in Ht.
    rewrite Ht. change (foldl (step w) ?s []) with s.
    cbn [foldl]. rewrite index_js_loaded, <- app_assoc. reflexivity. }
  rewrite Htr. split; [reflexivity |].
  unfold report_count, shutdown_events.
  destruct Hsig as [-> | ->]; cbn; rewrite executing_is_no_success; split; reflexivity.
Qed.

Lemma signal_abandons_request_witness :
  ("SIGINT" = "SIGTERM" \/ "SIGINT" = "SIGINT")
  /\ report_count (trace (run_process world_200 (IndexJs.main ∅)
                            (ISignal "SIGINT" :: [IResponse]))) = 0%nat.
Proof.
  split; [right; reflexivity |].
  exact (proj2 (proj2 (signal_abandons_request world_200 ∅ "SIGINT" [IResponse]
                         (or_intror eq_refl)))).
Defined.

(** X7.  The process runs one invocation.  When the response is the first
    thing to arrive and no signal follows, the trace of the index.js
    process is the three startup lines, the entry into [callAPI], and the
    trace of one invocation; for part_000 the same holds whatever arrives,
    signals apart, the invocation being over before the top level ends. *)
Theorem process_runs_one_invocation (w : World) (inputs : list Input) :
  forallb (fun i => negb (is_signal i)) inputs = true ->
  trace (run_process w (IndexJs.main (env w)) (IResponse :: inputs))
    = startup_lines ++ ECall "callAPI" :: index_js_run w 0
  /\ trace (run_process w (Part000.main (env w)) inputs)
     = startup_lines ++ ECall "callAPI" :: part_000_run w 0.
Proof.
  intros Hin. split.
  - unfold run_process. cbn [foldl].
    set (st1 := step w (foldl (run_stmt w) start (IndexJs.main (env w))) IResponse).
    assert (H1 : trace st1 = startup_lines ++ ECall "callAPI" :: index_js_run w 0
                 /\ pending st1 = [] /\ tasks st1 = []).
    { unfold st1, index_js_run.
      destruct (axios_get w (API_ENDPOINT (env w)) call_options) as [r | e] eqn:E.
      - rewrite (index_js_resolved w 0 _ r E).
        unfold step, IndexJs.main, IndexJs.callAPI. cbn. fold call_options. rewrite E.
        repeat split; reflexivity.
      - rewrite (index_js_rejected w 0 _ e E).
        unfold step, IndexJs.main, IndexJs.callAPI. cbn. fold call_options. rewrite E.
        unfold failure_events. cbn. destruct (response e); repeat split; reflexivity. }
    destruct H1 as (Htr & Hp & Ht). rewrite (idle_steps w inputs st1 Hp Ht Hin). exact Htr.
  - unfold run_process.
    destruct (part_000_loaded w (env w)) as [Htr Hp].
    rewrite (idle_steps w inputs _ Hp); [| | exact Hin].
    + rewrite Htr. unfold part_000_run. rewrite part_000_exec. reflexivity.
    + destruct (load_settled w (Part000.callAPI (Part000.module_scope (env w))
                                               (API_ENDPOINT (env w)))
                  (part_000_stays _ _)) as [(_ & Ht & _) _].
      exact Ht.
Qed.

Lemma process_runs_one_invocation_witness :
  forallb (fun i => negb (is_signal i)) [IHour; IResponse] = true
  /\ trace (run_process world_500 (IndexJs.main (env world_500))
              (IResponse :: [IHour; IResponse]))
     = startup_lines ++ ECall "callAPI" :: index_js_run world_500 0.
Proof.
  split; [reflexivity |].
  exact (proj1 (process_runs_one_invocation world_500 [IHour; IResponse] eq_refl)).
Defined.

(** X8.  In a scope that binds [getFrequency] to a function, an invocation
    of part_000 logs the hour and the label the function gives for it, then
    sends one request whose URL and options do not depend on the label, and
    reports the outcome: status and body on success, the failure report
    otherwise. *)
Theorem part_000_label_is_only_logged (w : World) (n : nat)
    (scope : gmap string Binding) (f : Z -> string) (url : string) :
  scope !! "getFrequency" = Some (BFunction f) ->
  trace_of (exec w (Part000.callAPI scope url) n) =
    [ ELog [VStr ("[" +:+ toISOString (clock w n) +:+ "] Current hour: "
                  +:+ pretty (getHours (clock w n)) +:+ ", Frequency: "
                  +:+ f (getHours (clock w n)))];
      EGet url call_options ]
    ++ match axios_get w url call_options with
       | Resolved r =>
           [ ELog [VStr ("[" +:+ toISOString (clock w n) +:+ "] API call successful:");
                   VNum (status r)];
             ELog [VStr "Response data:"; data r] ]
       | Rejected e => failure_events (clock w (S n)) e
       end.
Proof.
  intros H. unfold Part000.callAPI, resolve. cbn -[lookup pretty]. rewrite H.
  cbn -[pretty]. fold call_options.
  destruct (axios_get w url call_options) as [r | e]; cbn -[pretty].
  - reflexivity.
  - unfold failure_events. destruct (response e); reflexivity.
Qed.

Lemma part_000_label_is_only_logged_witness :
  (<["getFrequency" := BFunction classify]> (Part000.module_scope ∅))
    !! "getFrequency" = Some (BFunction classify)
  /\ requests (trace_of (exec world_200
                 (Part000.callAPI
                    (<["getFrequency" := BFunction classify]> (Part000.module_scope ∅))
                    (API_ENDPOINT ∅)) 0))
     = [(API_ENDPOINT ∅, call_options)].
Proof.
  assert (H : (<["getFrequency" := BFunction classify]> (Part000.module_scope ∅))
                !! "getFrequency" = Some (BFunction classify)) by reflexivity.
  split; [exact H |].
  rewrite (part_000_label_is_only_logged world_200 0
             (<["getFrequency" := BFunction classify]> (Part000.module_scope ∅))
             classify (API_ENDPOINT ∅) H).
  reflexivity.
Defined.

(** ** deploy.sh: sequencing and what can be run *)

Lemma sh_exec_bind {A B : Type} (o : Deploy.Oracle) (p : Deploy.Sh A)
    (f : A -> Deploy.Sh B) (n : nat) :
  Deploy.sh_exec o (p ≫= f) n =
    match Deploy.sh_exec o p n with
    | (tr, n1, inl a) =>
        let '(tr2, n2, r) := Deploy.sh_exec o (f a) n1 in (tr ++ tr2, n2, r)
    | (tr, n1, inr c) => (tr, n1, inr c)
    end.
Proof.
  revert n. induction p as [a | c | out e t k IH | t k IH | argv out k IH]; intros n.
  - cbn. destruct (Deploy.sh_exec o (f a) n) as [[tr2 n2] r]. reflexivity.
  - reflexivity.
  - change (Deploy.sh_exec o (Deploy.ShEcho out e t k ≫= f) n)
      with (let '(tr, n', r) := Deploy.sh_exec o (k ≫= f) n in
            (Deploy.Echo out e t :: tr, n', r)).
    rewrite IH. cbn.
    destruct (Deploy.sh_exec o k n) as [[tr n1] [a | c]]; [| reflexivity].
    destruct (Deploy.sh_exec o (f a) n1) as [[tr2 n2] r]. reflexivity.
  - change (Deploy.sh_exec o (Deploy.ShCat t k ≫= f) n)
      with (let '(tr, n', r) := Deploy.sh_exec o (k ≫= f) n in
            (Deploy.Cat t :: tr, n', r)).
    rewrite IH. cbn.
    destruct (Deploy.sh_exec o k n) as [[tr n1] [a | c]]; [| reflexivity].
    destruct (Deploy.sh_exec o (f a) n1) as [[tr2 n2] r]. reflexivity.
  - change (Deploy.sh_exec o (Deploy.ShRun argv out k ≫= f) n)
      with (let '(tr, n', r) := Deploy.sh_exec o (k (o n argv) ≫= f) (S n) in
            (Deploy.Ran argv (o n argv).1 :: tr, n', r)).
    rewrite IH. cbn.
    destruct (Deploy.sh_exec o (k (o n argv)) (S n)) as [[tr n1] [a | c]]; [| reflexivity].
    destruct (Deploy.sh_exec o (f a) n1) as [[tr2 n2] r]. reflexivity.
Qed.

Lemma sh_exec_bind_inv {A B : Type} (o : Deploy.Oracle) (p : Deploy.Sh A)
    (f : A -> Deploy.Sh B) (n n2 : nat) (tr : list Deploy.ShEvent) (r : B + Z) :
  Deploy.sh_exec o (p ≫= f) n = (tr, n2, r) ->
  (exists c, Deploy.sh_exec o p n = (tr, n2, inr c) /\ r = inr c)
  \/ (exists tr1 n1 a tr2,
        Deploy.sh_exec o p n = (tr1, n1, inl a)
        /\ Deploy.sh_exec o (f a) n1 = (tr2, n2, r)
        /\ tr = tr1 ++ tr2).
Proof.
  rewrite sh_exec_bind.
  destruct (Deploy.sh_exec o p n) as [[tr1 n1] [a | c]].
  - destruct (Deploy.sh_exec o (f a) n1) as [[tr2 n2'] r'] eqn:E.
    intros [= <- <- <-]. right. exists tr1, n1, a, tr2. auto.
  - intros [= <- <- <-]. left. exists c. auto.
Qed.

Lemma commands_app (tr1 tr2 : list Deploy.ShEvent) :
  Deploy.commands (tr1 ++ tr2) = Deploy.commands tr1 ++ Deploy.commands tr2.
Proof. unfold Deploy.commands. apply omap_app. Qed.

Section RunsIn.

Context (P : list string -> Prop).

Lemma runs_in_bind {A B : Type} (p : Deploy.Sh A) (f : A -> Deploy.Sh B) :
  runs_in P p -> (forall a, runs_in P (f a)) -> runs_in P (p ≫= f).
Proof.
  intros Hp Hf. induction p as [a | c | out e t k IH | t k IH | argv out k IH];
    cbn in *; auto.
  destruct Hp as [Ha Hk]. split; [exact Ha |]. intros r. apply IH, Hk.
Qed.

Lemma runs_in_to_stderr {A : Type} (p : Deploy.Sh A) :
  runs_in P p -> runs_in P (Deploy.to_stderr p).
Proof.
  induction p as [a | c | out e t k IH | t k IH | argv out k IH]; cbn; auto.
  intros [Ha Hk]. split; [exact Ha |]. intros r. apply IH, Hk.
Qed.

Lemma runs_in_subst_from {A : Type} (p : Deploy.Sh A) (acc : string) :
  runs_in P p -> runs_in P (Deploy.subst_from p acc).
Proof.
  revert acc. induction p as [a | c | out e t k IH | t k IH | argv out k IH];
    intros acc; cbn; auto.
  - destruct out; cbn; auto.
  - intros [Ha Hk]. destruct out; cbn; (split; [exact Ha |]); intros r; apply IH, Hk.
Qed.

Lemma runs_in_exec {A : Type} (o : Deploy.Oracle) (p : Deploy.Sh A) (n : nat) :
  runs_in P p -> Forall (fun c => P c.1) (Deploy.commands (Deploy.sh_exec o p n).1.1).
Proof.
  revert n. induction p as [a | c | out e t k IH | t k IH | argv out k IH];
    intros n Hp; cbn in *.
  - constructor.
  - constructor.
  - specialize (IH n Hp). destruct (Deploy.sh_exec o k n) as [[tr n'] r]. exact IH.
  - specialize (IH n Hp). destruct (Deploy.sh_exec o k n) as [[tr n'] r]. exact IH.
  - destruct Hp as [Ha Hk]. specialize (IH (o n argv) (S n) (Hk _)).
    destruct (Deploy.sh_exec o (k (o n argv)) (S n)) as [[tr n'] r].
    constructor; [exact Ha | exact IH].
Qed.

End RunsIn.

(** ** deploy.sh: the commands each function can run *)

Ltac crush_runs :=
  repeat first
    [ exact I
    | split
    | match goal with
      | |- forall _ : Z * string, _ => intro
      | |- context [decide ?c] => destruct (decide c)
      end
    | progress cbn ].

Section NoDeploy.

Context (P : list string -> Prop).
Context (Hother : forall argv, ~ is_deploy argv -> P argv).

Ltac other := crush_runs; apply Hother; unfold is_deploy; cbn; discriminate.

Lemma print_header_runs (msg : string) : runs_in P (Deploy.print_header msg).
Proof. exact I. Qed.

Lemma check_prerequisites_runs : runs_in P Deploy.check_prerequisites.
Proof. unfold Deploy.check_prerequisites. other. Qed.

Lemma get_project_id_runs (cfg : Deploy.Config) : runs_in P (Deploy.get_project_id cfg).
Proof. unfold Deploy.get_project_id. other. Qed.

Lemma enable_required_apis_runs (cfg : Deploy.Config) :
  runs_in P (Deploy.enable_required_apis cfg).
Proof. unfold Deploy.enable_required_apis. other. Qed.

Lemma setup_artifact_registry_runs (cfg : Deploy.Config) :
  runs_in P (Deploy.setup_artifact_registry cfg).
Proof. unfold Deploy.setup_artifact_registry. other. Qed.

Lemma build_and_push_image_runs (cfg : Deploy.Config) :
  runs_in P (Deploy.subst (Deploy.build_and_push_image cfg)).
Proof. unfold Deploy.subst, Deploy.build_and_push_image. other. Qed.

Lemma setup_cloud_scheduler_runs (cfg : Deploy.Config) :
  runs_in P (Deploy.setup_cloud_scheduler cfg).
Proof. unfold Deploy.setup_cloud_scheduler. other. Qed.

Lemma print_deployment_summary_runs (cfg : Deploy.Config) :
  runs_in P (Deploy.print_deployment_summary cfg).
Proof. unfold Deploy.print_deployment_summary. crush_runs. Qed.

End NoDeploy.



(** ** deploy.sh: the extra properties *)

Lemma deploy_runs (P : list string -> Prop) (cfg : Deploy.Config) (image : string) :
  (forall sa, P ( ["gcloud"; "run"; "jobs"; "deploy"; Deploy.JOB_NAME cfg;
                   "--image=" +:+ image;
                   "--region=" +:+ Deploy.REGION cfg;
                   "--project=" +:+ Deploy.PROJECT_ID cfg;
                   "--set-env-vars=API_ENDPOINT=" +:+ Deploy.API_ENDPOINT cfg] ++ sa)) ->
  runs_in P (Deploy.deploy_cloud_run_job cfg image).
Proof.
  intros H. unfold Deploy.deploy_cloud_run_job. crush_runs.
  - apply (H []).
  - apply (H ["--service-account=" +:+ Deploy.SERVICE_ACCOUNT cfg]).
Qed.

Lemma get_project_id_keeps (o : Deploy.Oracle) (cfg cfg' : Deploy.Config) (n n' : nat)
    (tr : list Deploy.ShEvent) :
  Deploy.sh_exec o (Deploy.get_project_id cfg) n = (tr, n', inl cfg') ->
  cfg' = Deploy.set_PROJECT_ID (Deploy.PROJECT_ID cfg') cfg
  /\ Deploy.PROJECT_ID cfg' <> "".
Proof.
  unfold Deploy.get_project_id.
  destruct (decide (Deploy.PROJECT_ID cfg = "")) as [He | Hne]; cbn.
  - destruct (decide ((o n ["gcloud"; "config"; "get-value"; "project"]).1 = 0));
      [| discriminate].
    destruct (decide (Deploy.strip_newlines
                        (o n ["gcloud"; "config"; "get-value"; "project"]).2 = ""));
      cbn; [discriminate |].
    intros [= <- <- <-]. split; [reflexivity | assumption].
  - intros [= <- <- <-]. split; [destruct cfg; reflexivity | assumption].
Qed.

Lemma set_PROJECT_ID_same (cfg : Deploy.Config) :
  Deploy.set_PROJECT_ID (Deploy.PROJECT_ID cfg) cfg = cfg.
Proof. destruct cfg; reflexivity. Qed.

(** The commands of the whole flow: anything that holds of the deploy
    command for every project, and of every other command, holds of every
    command [main] can run. *)
Lemma main_runs_in (P : list string -> Prop) (cfg : Deploy.Config) :
  (forall argv, ~ is_deploy argv -> P argv) ->
  (forall id image,
      runs_in P (Deploy.deploy_cloud_run_job (Deploy.set_PROJECT_ID id cfg) image)) ->
  runs_in P (Deploy.main cfg).
Proof.
  intros Hother Hd.
  assert (Hrest : forall id,
            runs_in P (Deploy.enable_required_apis (Deploy.set_PROJECT_ID id cfg);;
                       Deploy.setup_artifact_registry (Deploy.set_PROJECT_ID id cfg);;
                       image ← Deploy.subst
                                 (Deploy.build_and_push_image (Deploy.set_PROJECT_ID id cfg));
                       if decide (image.1 = 0) then
                         Deploy.deploy_cloud_run_job (Deploy.set_PROJECT_ID id cfg) image.2;;
                         Deploy.setup_cloud_scheduler (Deploy.set_PROJECT_ID id cfg);;
                         Deploy.print_deployment_summary (Deploy.set_PROJECT_ID id cfg)
                       else Deploy.ShExit image.1)).
  { intros id.
    apply runs_in_bind; [apply enable_required_apis_runs; exact Hother |]. intros _.
    apply runs_in_bind; [apply setup_artifact_registry_runs; exact Hother |]. intros _.
    apply runs_in_bind; [apply build_and_push_image_runs; exact Hother |]. intros image.
    destruct (decide (image.1 = 0)); [| exact I].
    apply runs_in_bind; [apply Hd |]. intros _.
    apply runs_in_bind; [apply setup_cloud_scheduler_runs; exact Hother |]. intros _.
    apply print_deployment_summary_runs. }
  unfold Deploy.main.
  apply runs_in_bind; [apply print_header_runs |]. intros _.
  apply runs_in_bind; [apply check_prerequisites_runs; exact Hother |]. intros _.
  unfold Deploy.get_project_id.
  destruct (decide (Deploy.PROJECT_ID cfg = "")) as [He | Hne].
  - split; [apply Hother; unfold is_deploy; cbn; discriminate |]. intros r. cbn.
    destruct (decide (r.1 = 0)); [| exact I].
    destruct (decide (Deploy.strip_newlines r.2 = "")); cbn; [exact I |].
    apply Hrest.
  - cbn. rewrite <- (set_PROJECT_ID_same cfg). apply Hrest.
Qed.

(** X10.  The deployed job calls the endpoint the deploying shell resolved,
    and that is the endpoint index.js resolves from the same environment:
    the script's [API_ENDPOINT] equals the constant of index.js, index.js
    started with that value in its environment resolves to it again, and
    every [gcloud run jobs deploy] the script runs passes it with
    [--set-env-vars]. *)
Theorem deployed_endpoint_agrees (environment : gmap string string)
    (o : Deploy.Oracle) (args : list string) (n : nat) :
  Deploy.API_ENDPOINT (Deploy.load_config environment) = API_ENDPOINT environment
  /\ API_ENDPOINT
       {[ "API_ENDPOINT" := Deploy.API_ENDPOINT (Deploy.load_config environment) ]}
     = API_ENDPOINT environment
  /\ Forall (fun c => c.1 !! 8%nat
                      = Some ("--set-env-vars=API_ENDPOINT=" +:+ API_ENDPOINT environment))
       (filter (fun c => is_deploy c.1)
          (Deploy.commands (Deploy.sh_exec o (Deploy.script args environment) n).1.1)).
Proof.
  assert (H1 : Deploy.API_ENDPOINT (Deploy.load_config environment)
               = API_ENDPOINT environment).
  { unfold API_ENDPOINT, js_or. cbn. destruct (environment !! "API_ENDPOINT") as [[|c s] |];
      reflexivity. }
  split; [exact H1 |]. split.
  { rewrite H1. unfold API_ENDPOINT at 1. rewrite lookup_singleton_eq.
    unfold API_ENDPOINT, js_or. destruct (environment !! "API_ENDPOINT") as [[|c s] |];
      reflexivity. }
  rewrite <- H1.
  apply Forall_forall. intros c Hc. apply list_elem_of_filter in Hc as [Hd Hc].
  pose proof (runs_in_exec
    (fun argv => is_deploy argv ->
       argv !! 8%nat = Some ("--set-env-vars=API_ENDPOINT="
                             +:+ Deploy.API_ENDPOINT (Deploy.load_config environment)))
    o (Deploy.script args environment) n) as Hall.
  rewrite Forall_forall in Hall. apply Hall; [| exact Hc | exact Hd].
  unfold Deploy.script. destruct (decide _); [exact I |].
  apply main_runs_in.
  - intros argv Hn Hd'. contradiction.
  - intros id image. apply deploy_runs. intros sa _. reflexivity.
Qed.

Lemma get_project_id_resources (o : Deploy.Oracle) (m c t r : string)
    (cfg : Deploy.Config) (n : nat) :
  Deploy.sh_exec o (Deploy.get_project_id (with_resources m c t r cfg)) n =
    match Deploy.sh_exec o (Deploy.get_project_id cfg) n with
    | (tr, n', inl cfg') => (tr, n', inl (with_resources m c t r cfg'))
    | (tr, n', inr code) => (tr, n', inr code)
    end.
Proof.
  unfold Deploy.get_project_id. cbn [Deploy.PROJECT_ID with_resources].
  destruct (decide (Deploy.PROJECT_ID cfg = "")); cbn.
  - destruct (decide ((o n ["gcloud"; "config"; "get-value"; "project"]).1 = 0));
      [| reflexivity].
    destruct (decide (Deploy.strip_newlines
                        (o n ["gcloud"; "config"; "get-value"; "project"]).2 = ""));
      reflexivity.
  - reflexivity.
Qed.

Lemma main_ignores_resources (o : Deploy.Oracle) (m c t r : string)
    (cfg : Deploy.Config) (n : nat) :
  Deploy.sh_exec o (Deploy.main (with_resources m c t r cfg)) n
  = Deploy.sh_exec o (Deploy.main cfg) n.
Proof.
  unfold Deploy.main.
  rewrite !(sh_exec_bind o (Deploy.print_header _)).
  destruct (Deploy.sh_exec o (Deploy.print_header _) n) as [[tr0 n0] [[] | code]];
    [| reflexivity].
  rewrite !(sh_exec_bind o Deploy.check_prerequisites).
  destruct (Deploy.sh_exec o Deploy.check_prerequisites n0) as [[tr1 n1] [[] | code]];
    [| reflexivity].
  rewrite !(sh_exec_bind o (Deploy.get_project_id _)), get_project_id_resources.
  destruct (Deploy.sh_exec o (Deploy.get_project_id cfg) n1) as [[tr2 n2] [cfg' | code]];
    reflexivity.
Qed.

(** X11.  The resource settings are not used.  Whatever [MEMORY], [CPU],
    [TIMEOUT] and [MAX_RETRIES] are set to, the script runs the same
    commands, prints the same lines and ends the same way. *)
Theorem resource_settings_are_ignored (environment : gmap string string)
    (memory cpu timeout max_retries : string) (o : Deploy.Oracle)
    (args : list string) (n : nat) :
  Deploy.sh_exec o
    (Deploy.script args
       (<["MEMORY" := memory]> (<["CPU" := cpu]> (<["TIMEOUT" := timeout]>
          (<["MAX_RETRIES" := max_retries]> environment))))) n
  = Deploy.sh_exec o (Deploy.script args environment) n.
Proof.
  assert (Hcfg : exists m c t r,
            Deploy.load_config
              (<["MEMORY" := memory]> (<["CPU" := cpu]> (<["TIMEOUT" := timeout]>
                 (<["MAX_RETRIES" := max_retries]> environment))))
            = with_resources m c t r (Deploy.load_config environment)).
  { unfold Deploy.load_config, with_resources. cbn.
    do 4 eexists. f_equal; try (rewrite !lookup_insert_ne by discriminate; reflexivity);
      reflexivity. }
  destruct Hcfg as (m & c & t & r & Hcfg).
  unfold Deploy.script. rewrite Hcfg.
  destruct (decide _); [reflexivity | apply main_ignores_resources].
Qed.

(** X12.  [get_project_id] never goes on with an empty project.  A project
    given in the configuration is kept and gcloud is not asked; without
    one, gcloud is asked once, and the function returns only if gcloud
    succeeds and prints a non-empty name, which becomes the project;
    otherwise the script ends with a non-zero status.  Nothing else of the
    configuration changes. *)
Theorem project_id_is_never_empty (o : Deploy.Oracle) (cfg : Deploy.Config) (n : nat) :
  match Deploy.sh_exec o (Deploy.get_project_id cfg) n with
  | (tr, _, inl cfg') =>
      Deploy.PROJECT_ID cfg' <> ""
      /\ cfg' = Deploy.set_PROJECT_ID (Deploy.PROJECT_ID cfg') cfg
      /\ Deploy.commands tr
         = (if decide (Deploy.PROJECT_ID cfg = "")
            then [(["gcloud"; "config"; "get-value"; "project"], 0)] else [])
      /\ Deploy.PROJECT_ID cfg'
         = (if decide (Deploy.PROJECT_ID cfg = "")
            then Deploy.strip_newlines (o n ["gcloud"; "config"; "get-value"; "project"]).2
            else Deploy.PROJECT_ID cfg)
  | (tr, _, inr code) =>
      code <> 0
      /\ Deploy.PROJECT_ID cfg = ""
      /\ Deploy.commands tr
         = [(["gcloud"; "config"; "get-value"; "project"],
             (o n ["gcloud"; "config"; "get-value"; "project"]).1)]
  end.
Proof.
  unfold Deploy.get_project_id.
  destruct (decide (Deploy.PROJECT_ID cfg = "")) as [He | Hne]; cbn.
  - destruct (decide ((o n ["gcloud"; "config"; "get-value"; "project"]).1 = 0))
      as [Hs | Hs]; cbn.
    + destruct (decide (Deploy.strip_newlines
                          (o n ["gcloud"; "config"; "get-value"; "project"]).2 = ""))
        as [Hp | Hp]; cbn.
      * repeat split; [discriminate | exact He].
      * rewrite Hs. repeat split; [exact Hp].
    + repeat split; [exact Hs | exact He].
  - repeat split; [exact Hne | symmetry; apply set_PROJECT_ID_same].
Qed.

(** X14.  The four APIs are enabled on a best-effort basis:
    [enable_required_apis] runs the four [gcloud services enable] commands
    in order whatever their statuses, then [sleep 2]; only a failing
    [sleep] ends the script. *)
Theorem apis_are_enabled_best_effort (o : Deploy.Oracle) (cfg : Deploy.Config) (n : nat) :
  (Deploy.commands (Deploy.sh_exec o (Deploy.enable_required_apis cfg) n).1.1).*1
    = ((fun api => ["gcloud"; "services"; "enable"; api;
                    "--project=" +:+ Deploy.PROJECT_ID cfg]) <$> Deploy.apis)
      ++ [["sleep"; "2"]]
  /\ (Deploy.sh_exec o (Deploy.enable_required_apis cfg) n).2
     = (if decide ((o (4 + n)%nat ["sleep"; "2"]).1 = 0) then inl tt
        else inr (o (4 + n)%nat ["sleep"; "2"]).1).
Proof.
  unfold Deploy.enable_required_apis. cbn.
  destruct (decide ((o (S (S (S (S n)))) ["sleep"; "2"]).1 = 0)); split; reflexivity.
Qed.

(** ** Command substitution keeps a tag *)

Lemma strip_newlines_line (s : string) :
  Deploy.strip_newlines (s +:+ String Deploy.LF EmptyString) = Deploy.strip_newlines s.
Proof.
  induction s as [| c s IH].
  - reflexivity.
  - change (String c s +:+ String Deploy.LF EmptyString)
      with (String c (s +:+ String Deploy.LF EmptyString)).
    cbn [Deploy.strip_newlines]. rewrite IH. reflexivity.
Qed.

Lemma strip_newlines_app (a b : string) :
  Deploy.strip_newlines b = b /\ b <> EmptyString ->
  Deploy.strip_newlines (a +:+ b) = a +:+ b /\ a +:+ b <> EmptyString.
Proof.
  intros [Hb Hne]. induction a as [| c a [IH IHne]].
  - split; assumption.
  - change (String c a +:+ b) with (String c (a +:+ b)). split; [| discriminate].
    cbn [Deploy.strip_newlines]. rewrite IH.
    destruct (a +:+ b); [contradiction | reflexivity].
Qed.

Lemma strip_image_tag (cfg : Deploy.Config) :
  Deploy.strip_newlines (Deploy.image_tag cfg +:+ String Deploy.LF EmptyString)
  = Deploy.image_tag cfg.
Proof.
  rewrite strip_newlines_line. unfold Deploy.image_tag.
  apply strip_newlines_app. repeat apply strip_newlines_app.
  split; [reflexivity | discriminate].
Qed.

(** X15.  [build_and_push_image], read through [$( )], names the image only
    when it is built and pushed.  With status 0 it has printed exactly the
    [:latest] tag, after [docker build] and both [docker push] succeeded;
    otherwise the status is 1, nothing is printed to the reader, and the
    command that failed is the last one run.  All its messages go to the
    standard error. *)
Theorem image_is_named_only_when_pushed (o : Deploy.Oracle) (cfg : Deploy.Config)
    (n : nat) :
  match Deploy.sh_exec o (Deploy.subst (Deploy.build_and_push_image cfg)) n with
  | (tr, _, inl (status, printed)) =>
      Forall (fun ev => match ev with
                        | Deploy.Echo out _ _ => out = Deploy.ToStderr
                        | _ => True
                        end) tr
      /\ if decide (status = 0) then
           printed = Deploy.image_tag cfg
           /\ exists stamp,
                tail (Deploy.commands tr)
                = [ (["docker"; "build"; "--platform"; "linux/amd64";
                      "-t"; Deploy.image_tag cfg; "-t"; stamp; "."], 0);
                    (["docker"; "push"; Deploy.image_tag cfg], 0);
                    (["docker"; "push"; stamp], 0) ]
         else
           status = 1 /\ printed = ""
           /\ exists failed code,
                last (Deploy.commands tr) = Some (failed, code) /\ code <> 0
                /\ take 1 failed = ["docker"]
  | (_, _, inr _) => False
  end.
Proof.
  unfold Deploy.subst, Deploy.build_and_push_image. cbn.
  set (now := Deploy.strip_newlines (o n ["date"; "+%Y%m%d-%H%M%S"]).2).
  destruct (decide ((o (S n) _).1 = 0)) as [Hb | Hb]; cbn.
  - destruct (decide ((o (S (S n)) _).1 = 0)) as [Hp | Hp]; cbn.
    + destruct (decide ((o (S (S (S n))) _).1 = 0)) as [Ht | Ht]; cbn.
      * split; [repeat constructor |].
        change (EmptyString +:+ Deploy.image_tag cfg +:+ String Deploy.LF EmptyString)
          with (Deploy.image_tag cfg +:+ String Deploy.LF EmptyString).
        rewrite strip_image_tag. split; [reflexivity |].
        eexists. rewrite Hb, Hp, Ht. reflexivity.
      * split; [repeat constructor |]. repeat split.
        eexists _, _. split; [reflexivity |]. split; [exact Ht | reflexivity].
    + split; [repeat constructor |]. repeat split.
      eexists _, _. split; [reflexivity |]. split; [exact Hp | reflexivity].
  - split; [repeat constructor |]. repeat split.
    eexists _, _. split; [reflexivity |]. split; [exact Hb | reflexivity].
Qed.

(** X13.  [setup_cloud_scheduler] writes the scheduler job exactly once:
    it updates the job when [gcloud scheduler jobs describe] finds it and
    creates it otherwise.  Either way the command carries the configured
    schedule, the URI that runs the Cloud Run job, the POST method, the
    service account email and the time zone, and the function returns
    exactly when that command succeeds. *)
Theorem scheduler_job_created_or_updated (o : Deploy.Oracle) (cfg : Deploy.Config)
    (n : nat) :
  exists has_job write status,
    (["gcloud"; "scheduler"; "jobs"; "describe"; Deploy.SCHEDULER_NAME cfg;
      "--location=" +:+ Deploy.REGION cfg;
      "--project=" +:+ Deploy.PROJECT_ID cfg], has_job)
      ∈ Deploy.commands (Deploy.sh_exec o (Deploy.setup_cloud_scheduler cfg) n).1.1
    /\ filter (fun c => is_scheduler_write c.1)
         (Deploy.commands (Deploy.sh_exec o (Deploy.setup_cloud_scheduler cfg) n).1.1)
       = [(write, status)]
    /\ write !! 3%nat = Some (if decide (has_job = 0) then "update" else "create")
    /\ write !! 5%nat = Some (Deploy.SCHEDULER_NAME cfg)
    /\ "--schedule=" +:+ Deploy.SCHEDULE cfg ∈ write
    /\ "--uri=" +:+ Deploy.job_uri cfg ∈ write
    /\ "--http-method=POST" ∈ write
    /\ "--oauth-service-account-email=" +:+ Deploy.oauth_email cfg ∈ write
    /\ "--time-zone=" +:+ Deploy.TIMEZONE cfg ∈ write
    /\ (Deploy.sh_exec o (Deploy.setup_cloud_scheduler cfg) n).2
       = (if decide (status = 0) then inl tt else inr status).
Proof.
  unfold Deploy.setup_cloud_scheduler. cbn.
  repeat (match goal with
          | |- context [decide ((o ?k ?a).1 = 0)] =>
              let H := fresh "Hs" in destruct (decide ((o k a).1 = 0)) as [H | H]
          end; cbn);
    eexists _, _, _;
    (split; [first [right; left; reflexivity | right; right; left; reflexivity] |]);
    (split; [reflexivity |]);
    repeat match goal with
           | H : (o _ _).1 = 0 |- _ => rewrite H
           | H : (o ?k ?a).1 <> 0 |- context [decide ((o ?k ?a).1 = 0)] =>
               destruct (decide ((o k a).1 = 0)); [contradiction |]
           end;
    cbn; repeat split; try reflexivity;
    repeat first [apply list_elem_of_here | apply list_elem_of_further].
Qed.

(** ** deploy.sh: the shape of a whole run *)

Lemma no_deploy_in (o : Deploy.Oracle) {A : Type} (p : Deploy.Sh A) (n : nat) :
  runs_in (fun argv => ~ is_deploy argv) p ->
  Forall (fun c => ~ is_deploy c.1) (Deploy.commands (Deploy.sh_exec o p n).1.1).
Proof. intros H. apply (runs_in_exec (fun argv => ~ is_deploy argv) o p n H). Qed.

Lemma build_commands (o : Deploy.Oracle) (cfg : Deploy.Config) (n : nat) :
  exists status printed first,
    (Deploy.sh_exec o (Deploy.subst (Deploy.build_and_push_image cfg)) n).2
      = inl (status, printed)
    /\ (status = 0 \/ status = 1)
    /\ (status = 0 ->
        printed = Deploy.image_tag cfg
        /\ exists stamp,
             Deploy.commands
               (Deploy.sh_exec o (Deploy.subst (Deploy.build_and_push_image cfg)) n).1.1
             = [ first;
                 (["docker"; "build"; "--platform"; "linux/amd64";
                   "-t"; Deploy.image_tag cfg; "-t"; stamp; "."], 0);
                 (["docker"; "push"; Deploy.image_tag cfg], 0);
                 (["docker"; "push"; stamp], 0) ]).
Proof.
  unfold Deploy.subst, Deploy.build_and_push_image. cbn.
  repeat (match goal with
          | |- context [decide ((o ?k ?a).1 = 0)] =>
              let H := fresh "Hs" in destruct (decide ((o k a).1 = 0)) as [H | H]
          end; cbn);
    try (exists 1, "", ([], 0); split; [reflexivity |];
         split; [right; reflexivity | discriminate]).
  eexists _, _, _. split; [reflexivity |].
  split; [left; reflexivity |]. intros _.
  change (EmptyString +:+ Deploy.image_tag cfg +:+ String Deploy.LF EmptyString)
    with (Deploy.image_tag cfg +:+ String Deploy.LF EmptyString).
  rewrite strip_image_tag. split; [reflexivity |].
  eexists. rewrite Hs, Hs0, Hs1. reflexivity.
Qed.

Lemma deploy_commands (o : Deploy.Oracle) (cfg : Deploy.Config) (image : string)
    (n : nat) :
  exists argv status,
    Deploy.commands (Deploy.sh_exec o (Deploy.deploy_cloud_run_job cfg image) n).1.1
      = [(argv, status)]
    /\ is_deploy argv
    /\ argv !! 5%nat = Some ("--image=" +:+ image)
    /\ (Deploy.sh_exec o (Deploy.deploy_cloud_run_job cfg image) n).2
       = (if decide (status = 0) then inl tt else inr status).
Proof.
  unfold Deploy.deploy_cloud_run_job.
  destruct (decide (Deploy.SERVICE_ACCOUNT cfg = "")); cbn;
    match goal with
    | |- context [decide ((o ?k ?a).1 = 0)] =>
        destruct (decide ((o k a).1 = 0)) as [H | H]
    end; cbn; eexists _, _; (split; [reflexivity |]);
    (split; [reflexivity |]); (split; [reflexivity |]);
    [ rewrite H; reflexivity
    | destruct (decide _); [contradiction | reflexivity]
    | rewrite H; reflexivity
    | destruct (decide _); [contradiction | reflexivity] ].
Qed.

Lemma exits_with_bind {A B : Type} (Q : Z -> Prop) (p : Deploy.Sh A)
    (f : A -> Deploy.Sh B) :
  exits_with Q p -> (forall a, exits_with Q (f a)) -> exits_with Q (p ≫= f).
Proof.
  intros Hp Hf. induction p as [a | c | out e t k IH | t k IH | argv out k IH];
    cbn in *; auto.
  intros r. apply IH, Hp.
Qed.

Lemma exits_with_exec {A : Type} (Q : Z -> Prop) (o : Deploy.Oracle)
    (p : Deploy.Sh A) (n : nat) (code : Z) :
  exits_with Q p -> (Deploy.sh_exec o p n).2 = inr code -> Q code.
Proof.
  revert n. induction p as [a | c | out e t k IH | t k IH | argv out k IH];
    intros n Hp; cbn in *.
  - discriminate.
  - intros [= <-]. exact Hp.
  - specialize (IH n Hp). destruct (Deploy.sh_exec o k n) as [[tr n'] r]. exact IH.
  - specialize (IH n Hp). destruct (Deploy.sh_exec o k n) as [[tr n'] r]. exact IH.
  - specialize (IH (o n argv) (S n) (Hp _)).
    destruct (Deploy.sh_exec o (k (o n argv)) (S n)) as [[tr n'] r]. exact IH.
Qed.

Ltac crush_exits :=
  repeat first
    [ exact I
    | assumption
    | discriminate
    | match goal with
      | |- forall _ : Z * string, _ => intro
      | |- context [decide ?c] => destruct (decide c)
      end
    | progress cbn ].

Lemma check_prerequisites_exits :
  exits_with (fun c => c <> 0) Deploy.check_prerequisites.
Proof. unfold Deploy.check_prerequisites. crush_exits. Qed.

Lemma get_project_id_exits (cfg : Deploy.Config) :
  exits_with (fun c => c <> 0) (Deploy.get_project_id cfg).
Proof. unfold Deploy.get_project_id. crush_exits. Qed.

Lemma enable_required_apis_exits (cfg : Deploy.Config) :
  exits_with (fun c => c <> 0) (Deploy.enable_required_apis cfg).
Proof. unfold Deploy.enable_required_apis. crush_exits. Qed.

Lemma setup_artifact_registry_exits (cfg : Deploy.Config) :
  exits_with (fun c => c <> 0) (Deploy.setup_artifact_registry cfg).
Proof. unfold Deploy.setup_artifact_registry. crush_exits. Qed.

Lemma flow_shape_exit (cs : list (list string * Z)) (code : Z) :
  Forall (fun c => ~ is_deploy c.1) cs -> code <> 0 -> flow_shape cs (inr code).
Proof. intros Hcs Hc. left. split; [exact Hcs |]. exists code. auto. Qed.

Lemma flow_shape_prefix (cs0 cs : list (list string * Z)) (r : unit + Z) :
  Forall (fun c => ~ is_deploy c.1) cs0 -> flow_shape cs r -> flow_shape (cs0 ++ cs) r.
Proof.
  intros H0 [[Hcs Hr] | (pre & first & stamp & tag & argv & status & rest & -> & Hpre & H)].
  - left. split; [apply Forall_app; auto | exact Hr].
  - right. exists (cs0 ++ pre), first, stamp, tag, argv, status, rest.
    split; [rewrite <- app_assoc; reflexivity |].
    split; [apply Forall_app; auto | exact H].
Qed.

(** A step that runs no deploy command and exits only with a non-zero
    status keeps the shape of what follows it. *)
Lemma flow_shape_bind {A : Type} (o : Deploy.Oracle) (p : Deploy.Sh A)
    (f : A -> Deploy.Sh unit) (n : nat) :
  runs_in (fun argv => ~ is_deploy argv) p ->
  exits_with (fun c => c <> 0) p ->
  (forall a n1, flow_shape (Deploy.commands (Deploy.sh_exec o (f a) n1).1.1)
                           (Deploy.sh_exec o (f a) n1).2) ->
  flow_shape (Deploy.commands (Deploy.sh_exec o (p ≫= f) n).1.1)
             (Deploy.sh_exec o (p ≫= f) n).2.
Proof.
  intros Hruns Hexits Hf. rewrite sh_exec_bind.
  pose proof (no_deploy_in o p n Hruns) as Hno.
  pose proof (fun code => exits_with_exec (fun c => c <> 0) o p n code Hexits) as Hex.
  destruct (Deploy.sh_exec o p n) as [[tr1 n1] [a | code]]; cbn in Hno, Hex.
  - specialize (Hf a n1).
    destruct (Deploy.sh_exec o (f a) n1) as [[tr2 n2] r]. cbn in *.
    rewrite commands_app. apply flow_shape_prefix; assumption.
  - cbn. apply flow_shape_exit; [exact Hno | apply Hex; reflexivity].
Qed.

Lemma scheduler_returns (o : Deploy.Oracle) (cfg : Deploy.Config) (n : nat) :
  match (Deploy.sh_exec o (Deploy.setup_cloud_scheduler cfg) n).2 with
  | inl _ =>
      exists write,
        (write, 0) ∈ Deploy.commands
                       (Deploy.sh_exec o (Deploy.setup_cloud_scheduler cfg) n).1.1
        /\ is_scheduler_write write
  | inr code => code <> 0
  end.
Proof.
  unfold Deploy.setup_cloud_scheduler. cbn.
  repeat (match goal with
          | |- context [decide ((o ?k ?a).1 = 0)] =>
              let H := fresh "Hs" in destruct (decide ((o k a).1 = 0)) as [H | H]
          end; cbn); try assumption;
    match goal with
    | H : (o ?k ("gcloud" :: "scheduler" :: "jobs" :: "update" :: ?r)).1 = 0 |- _ =>
        exists ("gcloud" :: "scheduler" :: "jobs" :: "update" :: r); rewrite H
    | H : (o ?k ("gcloud" :: "scheduler" :: "jobs" :: "create" :: ?r)).1 = 0 |- _ =>
        exists ("gcloud" :: "scheduler" :: "jobs" :: "create" :: r); rewrite H
    end;
    (split; [repeat first [apply list_elem_of_here | apply list_elem_of_further]
            | split; [reflexivity | first [left; reflexivity | right; reflexivity]]]).
Qed.

Lemma summary_returns (o : Deploy.Oracle) (cfg : Deploy.Config) (n : nat) :
  Deploy.commands (Deploy.sh_exec o (Deploy.print_deployment_summary cfg) n).1.1 = []
  /\ (Deploy.sh_exec o (Deploy.print_deployment_summary cfg) n).2 = inl tt.
Proof. split; reflexivity. Qed.

Lemma flow_core (o : Deploy.Oracle) (cfg : Deploy.Config) (n : nat) :
  flow_shape
    (Deploy.commands
       (Deploy.sh_exec o
          (image ← Deploy.subst (Deploy.build_and_push_image cfg);
           if decide (image.1 = 0) then
             Deploy.deploy_cloud_run_job cfg image.2;;
             Deploy.setup_cloud_scheduler cfg;;
             Deploy.print_deployment_summary cfg
           else Deploy.ShExit image.1) n).1.1)
    (Deploy.sh_exec o
       (image ← Deploy.subst (Deploy.build_and_push_image cfg);
        if decide (image.1 = 0) then
          Deploy.deploy_cloud_run_job cfg image.2;;
          Deploy.setup_cloud_scheduler cfg;;
          Deploy.print_deployment_summary cfg
        else Deploy.ShExit image.1) n).2.
Proof.
  rewrite sh_exec_bind.
  destruct (build_commands o cfg n) as (status & printed & first & Hr & Hst & Hok).
  pose proof (no_deploy_in o _ n
                (build_and_push_image_runs _ (fun argv H => H) cfg)) as Hnb.
  destruct (Deploy.sh_exec o (Deploy.subst (Deploy.build_and_push_image cfg)) n)
    as [[trb nb] rb].
  cbn [fst snd] in Hr, Hnb, Hok. subst rb. cbn [fst snd].
  destruct Hst as [-> | ->].
  - destruct (Hok eq_refl) as [-> [stamp Hcs]]. clear Hok.
    destruct (decide (0 = 0)) as [_ | Hn]; [| contradiction].
    rewrite sh_exec_bind.
    destruct (deploy_commands o cfg (Deploy.image_tag cfg) nb)
      as (argv & dstatus & Hdc & Hd & Himg & Hdr).
    destruct (Deploy.sh_exec o (Deploy.deploy_cloud_run_job cfg (Deploy.image_tag cfg)) nb)
      as [[trd nd] rd].
    cbn [fst snd] in Hdc, Hdr. subst rd.
    rewrite Hcs in Hnb. apply Forall_cons in Hnb as [Hfirst _].
    destruct (decide (dstatus = 0)) as [-> | Hds].
    + rewrite sh_exec_bind.
      pose proof (scheduler_returns o cfg nd) as Hsched.
      pose proof (no_deploy_in o _ nd
                    (setup_cloud_scheduler_runs _ (fun argv H => H) cfg)) as Hns.
      destruct (Deploy.sh_exec o (Deploy.setup_cloud_scheduler cfg) nd)
        as [[trs ns] [[] | code]]; cbn [fst snd] in Hsched, Hns.
      * destruct (summary_returns o cfg ns) as [Hsc Hsr].
        destruct (Deploy.sh_exec o (Deploy.print_deployment_summary cfg) ns)
          as [[trp np] rp].
        cbn [fst snd] in Hsc, Hsr. subst rp. cbn [fst snd].
        rewrite !commands_app, Hcs, Hdc, Hsc, app_nil_r.
        right. exists [], first, stamp, (Deploy.image_tag cfg), argv, 0,
                      (Deploy.commands trs).
        destruct Hsched as (write & Hw & Hsw).
        repeat split; try assumption; try constructor.
        exists write. split; assumption.
      * cbn [fst snd]. rewrite !commands_app, Hcs, Hdc.
        right. exists [], first, stamp, (Deploy.image_tag cfg), argv, 0,
                      (Deploy.commands trs).
        repeat split; try assumption; constructor.
    + cbn [fst snd]. rewrite !commands_app, Hcs, Hdc.
      right. exists [], first, stamp, (Deploy.image_tag cfg), argv, dstatus, [].
      repeat split; try assumption; constructor.
  - destruct (decide (1 = 0)) as [Hn | _]; [discriminate |].
    cbn [Deploy.sh_exec fst snd]. rewrite app_nil_r.
    apply flow_shape_exit; [exact Hnb | discriminate].
Qed.

Lemma main_shape (o : Deploy.Oracle) (cfg : Deploy.Config) (n : nat) :
  flow_shape (Deploy.commands (Deploy.sh_exec o (Deploy.main cfg) n).1.1)
             (Deploy.sh_exec o (Deploy.main cfg) n).2.
Proof.
  unfold Deploy.main.
  apply flow_shape_bind; [apply print_header_runs | exact I |]. intros _ n0.
  apply flow_shape_bind;
    [apply check_prerequisites_runs; auto | apply check_prerequisites_exits |].
  intros _ n1.
  apply flow_shape_bind;
    [apply get_project_id_runs; auto | apply get_project_id_exits |].
  intros cfg' n2.
  apply flow_shape_bind;
    [apply enable_required_apis_runs; auto | apply enable_required_apis_exits |].
  intros _ n3.
  apply flow_shape_bind;
    [apply setup_artifact_registry_runs; auto | apply setup_artifact_registry_exits |].
  intros _ n4. apply flow_core.
Qed.

Lemma split_at_unique {A : Type} (Q : A -> Prop) (l1 l2 before after : list A) (x y : A) :
  l1 ++ x :: l2 = before ++ y :: after ->
  Forall (fun a => ~ Q a) l1 -> Forall (fun a => ~ Q a) l2 -> Q y ->
  before = l1 /\ y = x /\ after = l2.
Proof.
  revert before. induction l1 as [| a l1 IH]; intros before Heq H1 H2 Hy.
  - destruct before as [| b before]; cbn in Heq.
    + injection Heq as -> ->. auto.
    + injection Heq as -> ->. exfalso.
      apply Forall_app in H2 as [_ H2]. apply Forall_cons in H2 as [H2 _]. contradiction.
  - apply Forall_cons in H1 as [Ha H1].
    destruct before as [| b before]; cbn in Heq.
    + injection Heq as -> _. contradiction.
    + injection Heq as -> Heq. destruct (IH before Heq H1 H2 Hy) as (-> & -> & ->). auto.
Qed.

(** X16.  The script deploys only an image it has just built and pushed.
    Wherever a [gcloud run jobs deploy] command stands among the commands
    of a run, its [--image] is a tag for which [docker build] and
    [docker push], and the push of the time-stamped tag built with it, have
    succeeded earlier in the run; and it is the only deploy command of the
    run. *)
Theorem deploy_only_after_push (o : Deploy.Oracle) (environment : gmap string string)
    (args : list string) (n : nat) (before after : list (list string * Z))
    (argv : list string) (status : Z) :
  Deploy.commands (Deploy.sh_exec o (Deploy.script args environment) n).1.1
    = before ++ (argv, status) :: after ->
  is_deploy argv ->
  exists tag stamp,
    argv !! 5%nat = Some ("--image=" +:+ tag)
    /\ (["docker"; "build"; "--platform"; "linux/amd64"; "-t"; tag; "-t"; stamp; "."], 0)
       ∈ before
    /\ (["docker"; "push"; tag], 0) ∈ before
    /\ (["docker"; "push"; stamp], 0) ∈ before
    /\ Forall (fun c => ~ is_deploy c.1) before
    /\ Forall (fun c => ~ is_deploy c.1) after.
Proof.
  intros Heq Hd. unfold Deploy.script in Heq.
  destruct (decide _) as [Hhelp | Hrun].
  - cbn in Heq. destruct before; discriminate.
  - destruct (main_shape o (Deploy.load_config environment) n)
      as [[Hno _] | (pre & first & stamp & tag & dargv & dstatus & rest
                     & Hcs & Hpre & Hfirst & Hrest & Hdd & Himg & _)].
    + rewrite Heq in Hno. apply Forall_app in Hno as [_ Hno].
      apply Forall_cons in Hno as [Hno _]. contradiction.
    + rewrite Hcs, app_assoc in Heq. symmetry in Heq.
      assert (Hbefore : Forall (fun c : list string * Z => ~ is_deploy c.1)
                (pre ++ [ first;
                          (["docker"; "build"; "--platform"; "linux/amd64";
                            "-t"; tag; "-t"; stamp; "."], 0);
                          (["docker"; "push"; tag], 0);
                          (["docker"; "push"; stamp], 0) ])).
      { apply Forall_app. split; [exact Hpre |].
        repeat constructor; try exact Hfirst; unfold is_deploy; cbn; discriminate. }
      destruct (split_at_unique (fun c => is_deploy c.1) _ _ _ _ _ _ (eq_sym Heq)
                  Hbefore Hrest Hd) as (-> & [= -> ->] & ->).
      exists tag, stamp. split; [exact Himg |].
      repeat split; try assumption; apply elem_of_app; right;
        repeat first [apply list_elem_of_here | apply list_elem_of_further].
Qed.

Lemma deploy_only_after_push_witness :
  exists before after argv,
    Deploy.commands (Deploy.sh_exec all_is_well (Deploy.script [] ∅) 0).1.1
      = before ++ (argv, 0) :: after
    /\ is_deploy argv
    /\ Forall (fun c => ~ is_deploy c.1) before.
Proof.
  pose (cs := Deploy.commands (Deploy.sh_exec all_is_well (Deploy.script [] ∅) 0).1.1).
  exists (take 15 cs), (drop 16 cs),
         ["gcloud"; "run"; "jobs"; "deploy"; "cron-uninterrupt-task";
          "--image=us-central1-docker.pkg.dev/my-project/cron-jobs/cron-uninterrupt-task:latest";
          "--region=us-central1"; "--project=my-project";
          "--set-env-vars=API_ENDPOINT=https://cloud.blackbox.ai/api/cron/resume-stalled"].
  assert (Heq : cs = take 15 cs ++ (["gcloud"; "run"; "jobs"; "deploy"; "cron-uninterrupt-task";
          "--image=us-central1-docker.pkg.dev/my-project/cron-jobs/cron-uninterrupt-task:latest";
          "--region=us-central1"; "--project=my-project";
          "--set-env-vars=API_ENDPOINT=https://cloud.blackbox.ai/api/cron/resume-stalled"], 0)
          :: drop 16 cs) by (vm_compute; reflexivity).
  assert (Hd : is_deploy ["gcloud"; "run"; "jobs"; "deploy"; "cron-uninterrupt-task";
          "--image=us-central1-docker.pkg.dev/my-project/cron-jobs/cron-uninterrupt-task:latest";
          "--region=us-central1"; "--project=my-project";
          "--set-env-vars=API_ENDPOINT=https://cloud.blackbox.ai/api/cron/resume-stalled"])
    by reflexivity.
  split; [exact Heq |]. split; [exact Hd |].
  destruct (deploy_only_after_push all_is_well ∅ [] 0 _ _ _ _ Heq Hd)
    as (tag & stamp & _ & _ & _ & _ & Hbefore & _).
  exact Hbefore.
Defined.

(** X17.  The script ends with status 0 only after [--help] or after a
    complete deployment: if the exit status is 0, either the run is the
    usage text alone, or a [gcloud run jobs deploy] command and a scheduler
    create or update command have both succeeded in it. *)
Theorem exit_status_zero_means_deployed (o : Deploy.Oracle)
    (environment : gmap string string) (args : list string) (n : nat) :
  Deploy.exit_status (Deploy.sh_exec o (Deploy.script args environment) n) = 0 ->
  (Deploy.sh_exec o (Deploy.script args environment) n).1.1 = [Deploy.Cat Deploy.usage]
  \/ exists argv write,
       (argv, 0) ∈ Deploy.commands (Deploy.sh_exec o (Deploy.script args environment) n).1.1
       /\ is_deploy argv
       /\ (write, 0) ∈ Deploy.commands
                         (Deploy.sh_exec o (Deploy.script args environment) n).1.1
       /\ is_scheduler_write write.
Proof.
  unfold Deploy.script. destruct (decide _) as [Hhelp | Hrun]; [left; reflexivity |].
  intros Hzero. right. unfold Deploy.exit_status in Hzero.
  destruct (main_shape o (Deploy.load_config environment) n)
    as [[_ (code & Hr & Hc)] | (pre & first & stamp & tag & argv & status & rest
                                & Hcs & _ & _ & _ & Hd & _ & Hend)].
  - rewrite Hr in Hzero. contradiction.
  - destruct ((Deploy.sh_exec o (Deploy.main (Deploy.load_config environment)) n).2)
      as [[] | code]; [| contradiction].
    destruct Hend as (-> & write & Hw & Hsw).
    exists argv, write. rewrite Hcs.
    split; [| split; [exact Hd | split; [| exact Hsw]]].
    + apply elem_of_app. right. apply elem_of_app. right. left.
    + apply elem_of_app. right. apply elem_of_app. right. right. exact Hw.
Qed.

Lemma exit_status_zero_means_deployed_witness :
  Deploy.exit_status (Deploy.sh_exec all_is_well (Deploy.script [] ∅) 0) = 0
  /\ ((Deploy.sh_exec all_is_well (Deploy.script [] ∅) 0).1.1 = [Deploy.Cat Deploy.usage]
      \/ exists argv write,
           (argv, 0) ∈ Deploy.commands (Deploy.sh_exec all_is_well (Deploy.script [] ∅) 0).1.1
           /\ is_deploy argv
           /\ (write, 0) ∈ Deploy.commands
                             (Deploy.sh_exec all_is_well (Deploy.script [] ∅) 0).1.1
           /\ is_scheduler_write write).
Proof.
  assert (H : Deploy.exit_status (Deploy.sh_exec all_is_well (Deploy.script [] ∅) 0) = 0)
    by (vm_compute; reflexivity).
  split; [exact H |].
  exact (exit_status_zero_means_deployed all_is_well ∅ [] 0 H).
Defined.

(** X18.  [check_prerequisites] stops at the first failing check.  It runs
    [command -v gcloud], [command -v docker] and [gcloud auth list] in this
    order; it returns when all three succeed, and otherwise exits with
    status 1 right after the first one that fails, the later checks not
    being run. *)
Theorem prerequisites_stop_at_first_failure (o : Deploy.Oracle) (n : nat) :
  match Deploy.sh_exec o Deploy.check_prerequisites n with
  | (tr, _, r) =>
      (Deploy.commands tr).*1
        = take (length (Deploy.commands tr))
            [ ["command"; "-v"; "gcloud"];
              ["command"; "-v"; "docker"];
              ["gcloud"; "auth"; "list"; "--filter=status:ACTIVE";
               "--format=value(account)"] ]
      /\ match r with
         | inl _ => (Deploy.commands tr).*2 = [0; 0; 0]
         | inr code =>
             code = 1
             /\ exists passed failed status,
                  Deploy.commands tr = passed ++ [(failed, status)]
                  /\ status <> 0
                  /\ Forall (fun c => c.2 = 0) passed
         end
  end.
Proof.
  unfold Deploy.check_prerequisites. cbn.
  repeat (match goal with
          | |- context [decide ((o ?k ?a).1 = 0)] =>
              let H := fresh "Hs" in destruct (decide ((o k a).1 = 0)) as [H | H]
          end; cbn).
  - split; [reflexivity |]. rewrite Hs, Hs0, Hs1. reflexivity.
  - split; [reflexivity |]. split; [reflexivity |].
    exists [(["command"; "-v"; "gcloud"], 0); (["command"; "-v"; "docker"], 0)].
    eexists _, _. rewrite Hs, Hs0. split; [reflexivity |].
    split; [exact Hs1 | repeat constructor].
  - split; [reflexivity |]. split; [reflexivity |].
    exists [(["command"; "-v"; "gcloud"], 0)].
    eexists _, _. rewrite Hs. split; [reflexivity |].
    split; [exact Hs0 | repeat constructor].
  - split; [reflexivity |]. split; [reflexivity |].
    exists []. eexists _, _. split; [reflexivity |].
    split; [exact Hs | constructor].
Qed.

(** X19.  [setup_artifact_registry] creates the repository only when it is
    missing: the create command is run exactly when
    [gcloud artifacts repositories describe] fails, and Docker
    authentication is configured only once the repository exists or has
    been created. *)
Theorem repository_is_created_only_if_missing (o : Deploy.Oracle) (cfg : Deploy.Config)
    (n : nat) :
  exists found,
    head (Deploy.commands (Deploy.sh_exec o (Deploy.setup_artifact_registry cfg) n).1.1)
      = Some (["gcloud"; "artifacts"; "repositories"; "describe";
               Deploy.REPOSITORY_NAME cfg;
               "--location=" +:+ Deploy.REGION cfg;
               "--project=" +:+ Deploy.PROJECT_ID cfg], found)
    /\ (filter (fun c => take 4 c.1 = ["gcloud"; "artifacts"; "repositories"; "create"])
          (Deploy.commands (Deploy.sh_exec o (Deploy.setup_artifact_registry cfg) n).1.1)).*1
       = (if decide (found = 0) then []
          else [ ["gcloud"; "artifacts"; "repositories"; "create";
                  Deploy.REPOSITORY_NAME cfg;
                  "--repository-format=docker";
                  "--location=" +:+ Deploy.REGION cfg;
                  "--description=Docker repository for cron jobs";
                  "--project=" +:+ Deploy.PROJECT_ID cfg] ])
    /\ match (Deploy.sh_exec o (Deploy.setup_artifact_registry cfg) n).2 with
       | inl _ =>
           (["gcloud"; "auth"; "configure-docker";
             Deploy.REGION cfg +:+ "-docker.pkg.dev"; "--quiet"], 0)
           ∈ Deploy.commands (Deploy.sh_exec o (Deploy.setup_artifact_registry cfg) n).1.1
       | inr code =>
           code <> 0
           /\ last ((Deploy.commands
                       (Deploy.sh_exec o (Deploy.setup_artifact_registry cfg) n).1.1).*2)
              = Some code
       end.
Proof.
  exists (o n ["gcloud"; "artifacts"; "repositories"; "describe";
               Deploy.REPOSITORY_NAME cfg;
               "--location=" +:+ Deploy.REGION cfg;
               "--project=" +:+ Deploy.PROJECT_ID cfg]).1.
  unfold Deploy.setup_artifact_registry. cbn.
  repeat (match goal with
          | |- context [decide ((o ?k ?a).1 = 0)] =>
              let H := fresh "Hs" in destruct (decide ((o k a).1 = 0)) as [H | H]
          end; cbn);
    (split; [reflexivity |]); (split; [reflexivity |]);
    first [ split; [assumption | reflexivity]
          | match goal with
            | H : (o ?k ("gcloud" :: "auth" :: ?r)).1 = 0 |- _ => rewrite H
            end;
            repeat first [apply list_elem_of_here | apply list_elem_of_further] ].
Qed.
